(** * Plank model of the balancing-act simulation (src/js/common/model/Plank.js)

    A shallow embedding of the plank model.  JavaScript numbers are read
    as real numbers, with [NaN] as [None] where the code can produce it;
    the values held by the surface center and by the mass positions are
    JavaScript values ([JSValue]), since the code stores non-numbers
    there.  Every method of [Plank] becomes a function in a small
    state-and-exception monad over a [World] holding the plank and the mass
    objects it manipulates.  An exception keeps the world as it was at the
    throw point, as JavaScript does: the mutations performed before the
    throw stay visible to later calls.

    Library collaborators ([ObservableArray], [Vector2], [Shape], [Matrix3])
    are read with their evident meaning: an [ObservableArray] behaves as a
    JavaScript array (push, splice, indexOf, slice, forEach, indexing); a
    [Shape] is its list of outline points; vectors are pairs of reals. *)

From Stdlib Require Import Reals Lra Lia List String Bool ZArith QArith Qround.
Import ListNotations.
Open Scope R_scope.

(* ------------------------------------------------------------------ *)
(** ** Geometry primitives (dot / kite) *)

Record Vector2 := mkVector2 { vx : R; vy : R }.

Definition v2plus (a b : Vector2) : Vector2 :=
  mkVector2 (vx a + vx b) (vy a + vy b).

Definition v2minus (a b : Vector2) : Vector2 :=
  mkVector2 (vx a - vx b) (vy a - vy b).

(** [Vector2.rotated]: counter-clockwise rotation by [a] radians. *)
Definition rotated (v : Vector2) (a : R) : Vector2 :=
  mkVector2 (vx v * cos a - vy v * sin a) (vx v * sin a + vy v * cos a).

(** [Vector2.distance]: Euclidean distance. *)
Definition distance (a b : Vector2) : R :=
  sqrt ((vx a - vx b) * (vx a - vx b) + (vy a - vy b) * (vy a - vy b)).

(** [Matrix3.rotationAround(angle, px, py)] applied to a point. *)
Definition rotationAround (angle px py : R) (v : Vector2) : Vector2 :=
  v2plus (rotated (v2minus v (mkVector2 px py)) angle) (mkVector2 px py).

(* ------------------------------------------------------------------ *)
(** ** JavaScript values

    A number that may be [NaN] is a [JSNum]: [Some r] for the number [r],
    [None] for [NaN].  Arithmetic with [NaN] gives [NaN]; a relational
    comparison with [NaN] is false. *)
Definition JSNum := option R.

Definition nlift2 (f : R -> R -> R) (a b : JSNum) : JSNum :=
  match a, b with
  | Some x, Some y => Some (f x y)
  | _, _ => None
  end.

Definition nadd : JSNum -> JSNum -> JSNum := nlift2 Rplus.
Definition nsub : JSNum -> JSNum -> JSNum := nlift2 Rminus.
Definition nmul : JSNum -> JSNum -> JSNum := nlift2 Rmult.

(** [a < b] and [a <= b] on numbers. *)
Definition nlt (a b : JSNum) : bool :=
  match a, b with
  | Some x, Some y => if Rlt_dec x y then true else false
  | _, _ => false
  end.

Definition nle (a b : JSNum) : bool :=
  match a, b with
  | Some x, Some y => if Rle_dec x y then true else false
  | _, _ => false
  end.

(** The values a vector component takes in this code: a number, [NaN],
    [undefined], a [Vector2] object, or the string that [+] makes of a
    [Vector2] object followed by numbers (the object's [toString()],
    ["Vector2(x, y)"], then the numbers' digits). *)
Inductive JSValue :=
| JVNum (r : R)
| JVNaN
| JVUndefined
| JVVector (v : Vector2)
| JVVectorString (v : Vector2) (rs : list R).

(** [ToNumber], as the arithmetic and relational operators apply it: an
    object goes through its string; a string that begins with
    ["Vector2("] is not a numeric literal, so it gives [NaN]. *)
Definition toNumber (a : JSValue) : JSNum :=
  match a with
  | JVNum r => Some r
  | _ => None
  end.

(** [a + r] for a number [r]: a numeric sum, or a string concatenation
    when [a] is an object or a string. *)
Definition js_add (a : JSValue) (r : R) : JSValue :=
  match a with
  | JVNum x => JVNum (x + r)
  | JVNaN => JVNaN
  | JVUndefined => JVNaN
  | JVVector v => JVVectorString v [r]
  | JVVectorString v rs => JVVectorString v (rs ++ [r])
  end.

(** A [Vector2] object as the code can build it: [new Vector2( x, y )]
    stores its two arguments as given. *)
Record JSVector2 := mkJSVector2 { jx : JSValue; jy : JSValue }.

(** A vector whose components are numbers. *)
Definition numVec (v : Vector2) : JSVector2 := mkJSVector2 (JVNum (vx v)) (JVNum (vy v)).

(** [new Vector2( v )] with one vector argument: [x] is the object [v],
    [y] is [undefined]. *)
Definition newVector2Of (v : Vector2) : JSVector2 := mkJSVector2 (JVVector v) JVUndefined.

(** [a.plus( b )]: [new Vector2( a.x + b.x, a.y + b.y )]. *)
Definition jsPlus (a : JSVector2) (b : Vector2) : JSVector2 :=
  mkJSVector2 (js_add (jx a) (vx b)) (js_add (jy a) (vy b)).

(** [a.distance( b )]: the square root of the sum of the squared
    differences of the components, converted to numbers. *)
Definition jsDistance (a b : JSVector2) : JSNum :=
  let dx := nsub (toNumber (jx a)) (toNumber (jx b)) in
  let dy := nsub (toNumber (jy a)) (toNumber (jy b)) in
  option_map sqrt (nadd (nmul dx dx) (nmul dy dy)).

(** A [Shape] is its list of outline points; [transformed] maps a point
    transformation over them and [bounds] is their bounding box. *)
Definition Shape := list Vector2.

Definition transformed (s : Shape) (f : Vector2 -> Vector2) : Shape := map f s.

Definition fold_bound (op : R -> R -> R) (c : Vector2 -> R) (s : Shape) : R :=
  match s with
  | [] => 0
  | p :: ps => fold_left (fun acc q => op acc (c q)) ps (c p)
  end.

Definition boundsMinX (s : Shape) : R := fold_bound Rmin vx s.
Definition boundsMaxX (s : Shape) : R := fold_bound Rmax vx s.
Definition boundsMinY (s : Shape) : R := fold_bound Rmin vy s.
Definition boundsMaxY (s : Shape) : R := fold_bound Rmax vy s.

(* ------------------------------------------------------------------ *)
(** ** Constants of Plank.js *)

Definition PLANK_LENGTH : R := 45 / 10.
Definition PLANK_THICKNESS : R := 5 / 100.
Definition PLANK_MASS : R := 75.
Definition INTER_SNAP_TO_MARKER_DISTANCE : R := 25 / 100.

(** [Math.floor( PLANK_LENGTH / INTER_SNAP_TO_MARKER_DISTANCE - 1 )],
    evaluated on the same decimal constants as rationals. *)
Definition NUM_SNAP_TO_LOCATIONS : nat :=
  Z.to_nat (Qfloor (Qmake 45 10 / Qmake 25 100 - 1)).

Definition MOMENT_OF_INERTIA : R :=
  PLANK_MASS * ((PLANK_LENGTH * PLANK_LENGTH)
                + (PLANK_THICKNESS * PLANK_THICKNESS)) / 12.

(* ------------------------------------------------------------------ *)
(** ** Masses, force vectors and the mass-distance array *)

(** Mass objects are referred to by identity; the world stores them. *)
Definition MassId := nat.

(** The fields of a mass the plank reads or writes.  [middleOffset] is the
    height of [getMiddlePoint()] above [position] (as in ImageMass.js). *)
Record Mass := mkMass {
  position : JSVector2;
  rotationAngle : R;
  mass : R;
  onPlank : bool;
  middleOffset : R
}.

(** [new Vector2( position.x, position.y + this.heightProperty.get() / 2 )]. *)
Definition getMiddlePoint (m : Mass) : JSVector2 :=
  mkJSVector2 (jx (position m)) (js_add (jy (position m)) (middleOffset m)).

(** [new MassForceVector( mass )]: the plank only reads its [mass]. *)
Record MassForceVector := mkMassForceVector { fv_mass : MassId }.

(** An element [{ mass, distance }] of [massDistancePairs]. *)
Record MassDistancePair := mkMassDistancePair {
  mdp_mass : MassId;
  mdp_distance : R
}.

(** The JavaScript array [massDistancePairs]: its indexed elements and the
    one named property that [this.massDistancePairs[ mass ] = ...] writes.
    A mass used as a property key is converted to the string
    ["[object Object]"], so every mass writes the same property ([None]
    while it is absent). *)
Record JSArray := mkJSArray {
  elems : list MassDistancePair;
  objectObjectKey : option JSNum
}.

Definition emptyJSArray : JSArray := mkJSArray [] None.

(** [ToNumber] of an array, as the relational operator [i < array] computes
    it: the array is joined with commas; no elements give the empty string, that is 0;
    an element that is an object gives ["[object Object]"], that is [NaN]
    (here [None]). *)
Definition arrayToNumber (a : JSArray) : option R :=
  match elems a with
  | [] => Some 0
  | _ :: _ => None
  end.

(** [n < v] with [v] a number or [NaN] ([None]). *)
Definition js_lt (n : R) (v : option R) : bool :=
  match v with
  | Some r => if Rlt_dec n r then true else false
  | None => false
  end.

(* ------------------------------------------------------------------ *)
(** ** The plank and the world *)

(** The fields of a [Plank] object.  [columnState] is the current value of
    the column-state property ([columnState.value]).  The constructor's
    [massForceVectors] and [tickMarks] are never read by the plank, and
    [bottomCenterPoint] (written by [updatePlank]) is never read either;
    they are not modelled. *)
Record Plank := mkPlank {
  bottomCenterLocation : Vector2;
  tiltAngle : R;
  shape : Shape;
  userControlled : bool;
  massesOnSurface : list MassId;
  forceVectors : list MassForceVector;
  pivotPoint : Vector2;
  columnState : string;
  angularVelocity : R;
  currentNetTorque : R;
  maxTiltAngle : R;
  massDistancePairs : JSArray;
  unrotatedShape : Shape;
  turningRight : bool
}.

(** The outline built by the constructor, translated to [location]. *)
Definition plankOutline (location : Vector2) : Shape :=
  map (fun p => v2plus p location)
    [ mkVector2 0 0; mkVector2 (PLANK_LENGTH / 2) 0;
      mkVector2 (PLANK_LENGTH / 2) PLANK_THICKNESS;
      mkVector2 0 PLANK_THICKNESS;
      mkVector2 (- PLANK_LENGTH / 2) PLANK_THICKNESS;
      mkVector2 (- PLANK_LENGTH / 2) 0; mkVector2 0 0 ].

(** [new Plank( location, pivotPoint, columnState )]. *)
Definition newPlank (location pivot : Vector2) (column : string) : Plank :=
  {| bottomCenterLocation := location;
     tiltAngle := 0;
     shape := plankOutline location;
     userControlled := false;
     massesOnSurface := [];
     forceVectors := [];
     pivotPoint := pivot;
     columnState := column;
     angularVelocity := 0;
     currentNetTorque := 0;
     maxTiltAngle := asin (vy location / (PLANK_LENGTH / 2));
     massDistancePairs := emptyJSArray;
     unrotatedShape := plankOutline location;
     turningRight := true |}.

(** The plank together with the mass objects it reads and writes. *)
Record World := mkWorld {
  plank : Plank;
  masses : MassId -> Mass
}.

(** Exceptions thrown by the code. *)
Inductive Exn :=
| TypeError (msg : string)
| Error (msg : string).

(** Result of running a method: a value or an exception, and the world at
    that point. *)
Inductive Res (A : Type) :=
| Ok (a : A) (w : World)
| Exc (e : Exn) (w : World).
Arguments Ok {A} a w.
Arguments Exc {A} e w.

Definition res_world {A} (r : Res A) : World :=
  match r with Ok _ w => w | Exc _ w => w end.

Definition M (A : Type) := World -> Res A.

Definition ret {A} (a : A) : M A := fun w => Ok a w.

Definition bind {A B} (m : M A) (k : A -> M B) : M B :=
  fun w => match m w with Ok a w' => k a w' | Exc e w' => Exc e w' end.

Definition throw {A} (e : Exn) : M A := fun w => Exc e w.

Definition getPlank : M Plank := fun w => Ok (plank w) w.

Definition getMass (m : MassId) : M Mass := fun w => Ok (masses w m) w.

Definition modifyPlank (f : Plank -> Plank) : M unit :=
  fun w => Ok tt (mkWorld (f (plank w)) (masses w)).

Definition modifyMass (m : MassId) (f : Mass -> Mass) : M unit :=
  fun w => Ok tt (mkWorld (plank w)
                    (fun n => if Nat.eqb n m then f (masses w n) else masses w n)).

Notation "'let*' x ':=' m 'in' k" := (bind m (fun x => k))
  (at level 200, x name, m at level 100, k at level 200).
Notation "m ;; k" := (bind m (fun _ => k)) (at level 100, right associativity).

(** [array.forEach( callback )] over a list, in order. *)
Fixpoint forEach {A} (l : list A) (f : A -> M unit) : M unit :=
  match l with
  | [] => ret tt
  | a :: l' => f a ;; forEach l' f
  end.

(** Field updates of the plank. *)
Definition set_tiltAngle (t : R) (p : Plank) : Plank :=
  {| bottomCenterLocation := bottomCenterLocation p; tiltAngle := t;
     shape := shape p; userControlled := userControlled p;
     massesOnSurface := massesOnSurface p; forceVectors := forceVectors p;
     pivotPoint := pivotPoint p; columnState := columnState p;
     angularVelocity := angularVelocity p;
     currentNetTorque := currentNetTorque p; maxTiltAngle := maxTiltAngle p;
     massDistancePairs := massDistancePairs p;
     unrotatedShape := unrotatedShape p; turningRight := turningRight p |}.

Definition set_angularVelocity (v : R) (p : Plank) : Plank :=
  {| bottomCenterLocation := bottomCenterLocation p; tiltAngle := tiltAngle p;
     shape := shape p; userControlled := userControlled p;
     massesOnSurface := massesOnSurface p; forceVectors := forceVectors p;
     pivotPoint := pivotPoint p; columnState := columnState p;
     angularVelocity := v;
     currentNetTorque := currentNetTorque p; maxTiltAngle := maxTiltAngle p;
     massDistancePairs := massDistancePairs p;
     unrotatedShape := unrotatedShape p; turningRight := turningRight p |}.

Definition set_currentNetTorque (t : R) (p : Plank) : Plank :=
  {| bottomCenterLocation := bottomCenterLocation p; tiltAngle := tiltAngle p;
     shape := shape p; userControlled := userControlled p;
     massesOnSurface := massesOnSurface p; forceVectors := forceVectors p;
     pivotPoint := pivotPoint p; columnState := columnState p;
     angularVelocity := angularVelocity p;
     currentNetTorque := t; maxTiltAngle := maxTiltAngle p;
     massDistancePairs := massDistancePairs p;
     unrotatedShape := unrotatedShape p; turningRight := turningRight p |}.

Definition set_turningRight (b : bool) (p : Plank) : Plank :=
  {| bottomCenterLocation := bottomCenterLocation p; tiltAngle := tiltAngle p;
     shape := shape p; userControlled := userControlled p;
     massesOnSurface := massesOnSurface p; forceVectors := forceVectors p;
     pivotPoint := pivotPoint p; columnState := columnState p;
     angularVelocity := angularVelocity p;
     currentNetTorque := currentNetTorque p; maxTiltAngle := maxTiltAngle p;
     massDistancePairs := massDistancePairs p;
     unrotatedShape := unrotatedShape p; turningRight := b |}.

Definition set_shape (s : Shape) (p : Plank) : Plank :=
  {| bottomCenterLocation := bottomCenterLocation p; tiltAngle := tiltAngle p;
     shape := s; userControlled := userControlled p;
     massesOnSurface := massesOnSurface p; forceVectors := forceVectors p;
     pivotPoint := pivotPoint p; columnState := columnState p;
     angularVelocity := angularVelocity p;
     currentNetTorque := currentNetTorque p; maxTiltAngle := maxTiltAngle p;
     massDistancePairs := massDistancePairs p;
     unrotatedShape := unrotatedShape p; turningRight := turningRight p |}.

Definition set_userControlled (b : bool) (p : Plank) : Plank :=
  {| bottomCenterLocation := bottomCenterLocation p; tiltAngle := tiltAngle p;
     shape := shape p; userControlled := b;
     massesOnSurface := massesOnSurface p; forceVectors := forceVectors p;
     pivotPoint := pivotPoint p; columnState := columnState p;
     angularVelocity := angularVelocity p;
     currentNetTorque := currentNetTorque p; maxTiltAngle := maxTiltAngle p;
     massDistancePairs := massDistancePairs p;
     unrotatedShape := unrotatedShape p; turningRight := turningRight p |}.

Definition set_columnState (c : string) (p : Plank) : Plank :=
  {| bottomCenterLocation := bottomCenterLocation p; tiltAngle := tiltAngle p;
     shape := shape p; userControlled := userControlled p;
     massesOnSurface := massesOnSurface p; forceVectors := forceVectors p;
     pivotPoint := pivotPoint p; columnState := c;
     angularVelocity := angularVelocity p;
     currentNetTorque := currentNetTorque p; maxTiltAngle := maxTiltAngle p;
     massDistancePairs := massDistancePairs p;
     unrotatedShape := unrotatedShape p; turningRight := turningRight p |}.

Definition set_massesOnSurface (l : list MassId) (p : Plank) : Plank :=
  {| bottomCenterLocation := bottomCenterLocation p; tiltAngle := tiltAngle p;
     shape := shape p; userControlled := userControlled p;
     massesOnSurface := l; forceVectors := forceVectors p;
     pivotPoint := pivotPoint p; columnState := columnState p;
     angularVelocity := angularVelocity p;
     currentNetTorque := currentNetTorque p; maxTiltAngle := maxTiltAngle p;
     massDistancePairs := massDistancePairs p;
     unrotatedShape := unrotatedShape p; turningRight := turningRight p |}.

Definition set_forceVectors (l : list MassForceVector) (p : Plank) : Plank :=
  {| bottomCenterLocation := bottomCenterLocation p; tiltAngle := tiltAngle p;
     shape := shape p; userControlled := userControlled p;
     massesOnSurface := massesOnSurface p; forceVectors := l;
     pivotPoint := pivotPoint p; columnState := columnState p;
     angularVelocity := angularVelocity p;
     currentNetTorque := currentNetTorque p; maxTiltAngle := maxTiltAngle p;
     massDistancePairs := massDistancePairs p;
     unrotatedShape := unrotatedShape p; turningRight := turningRight p |}.

Definition set_massDistancePairs (a : JSArray) (p : Plank) : Plank :=
  {| bottomCenterLocation := bottomCenterLocation p; tiltAngle := tiltAngle p;
     shape := shape p; userControlled := userControlled p;
     massesOnSurface := massesOnSurface p; forceVectors := forceVectors p;
     pivotPoint := pivotPoint p; columnState := columnState p;
     angularVelocity := angularVelocity p;
     currentNetTorque := currentNetTorque p; maxTiltAngle := maxTiltAngle p;
     massDistancePairs := a;
     unrotatedShape := unrotatedShape p; turningRight := turningRight p |}.

(** Field updates of a mass. *)
Definition set_position (v : JSVector2) (m : Mass) : Mass :=
  mkMass v (rotationAngle m) (mass m) (onPlank m) (middleOffset m).
Definition set_rotationAngle (a : R) (m : Mass) : Mass :=
  mkMass (position m) a (mass m) (onPlank m) (middleOffset m).
Definition set_onPlank (b : bool) (m : Mass) : Mass :=
  mkMass (position m) (rotationAngle m) (mass m) b (middleOffset m).

(** Boolean comparisons of reals, as the code's [<] and [<=]. *)
Definition Rltb (a b : R) : bool := if Rlt_dec a b then true else false.
Definition Rleb (a b : R) : bool := if Rle_dec a b then true else false.

(* ------------------------------------------------------------------ *)
(** ** Receivers of callbacks

    Plank.js is in strict mode ('use strict'), so inside a plain
    [function( mass ) { ... }] passed to [forEach] without a [thisArg],
    [this] is [undefined]; reading a property of it throws a [TypeError].
    Callbacks that capture [thisPlank] instead reach the plank. *)
Inductive JSThis := Undefined | ThisPlank.

Definition this_getPlank (self : JSThis) (prop : string) : M Plank :=
  match self with
  | Undefined =>
      throw (TypeError ("Cannot read property '" ++ prop ++ "' of undefined"))
  | ThisPlank => getPlank
  end.

(* ------------------------------------------------------------------ *)
(** ** Derived geometric queries *)

(** [getPlankSurfaceCenter]:
    [new Vector2( this.bottomCenterLocation ).plus( new Vector2( 0, PLANK_THICKNESS ).rotated( this.tiltAngle ) )].
    [new Vector2( v )] takes the vector as its [x] and leaves [y]
    undefined, so [plus] makes [x] a string and [y] [NaN]. *)
Definition getPlankSurfaceCenter (p : Plank) : JSVector2 :=
  jsPlus (newVector2Of (bottomCenterLocation p))
    (rotated (mkVector2 0 PLANK_THICKNESS) (tiltAngle p)).

(** [getSurfaceYValue( xValue )], with [xValue] converted to a number by
    [m * xValue]. *)
Definition getSurfaceYValue (p : Plank) (xValue : JSNum) : JSNum :=
  let m := tan (tiltAngle p) in
  let b := nsub (toNumber (jy (getPlankSurfaceCenter p)))
                (nmul (Some m) (toNumber (jx (getPlankSurfaceCenter p)))) in
  nadd (nmul (Some m) xValue) b.

(** [isPointAbovePlank( p )]:
    [p.x >= plankBounds.minX && p.x <= plankBounds.maxX && p.y > this.getSurfaceYValue( p.x )]. *)
Definition isPointAbovePlank (p : Plank) (pt : JSVector2) : bool :=
  nle (Some (boundsMinX (shape p))) (toNumber (jx pt))
  && nle (toNumber (jx pt)) (Some (boundsMaxX (shape p)))
  && nlt (getSurfaceYValue p (toNumber (jx pt))) (toNumber (jy pt)).

(** The loop of [getMassDistanceFromCenter]:
    [for ( var i = 0; i < this.massDistancePairs; i++ )], the bound being
    the array itself (converted by [arrayToNumber]). *)
Fixpoint mdpLookup (bound : option R) (i : nat) (rest : list MassDistancePair)
  (m : MassId) : M R :=
  if js_lt (INR i) bound then
    match rest with
    | [] => throw (TypeError "Cannot read property 'mass' of undefined")
    | pr :: rest' =>
        if Nat.eqb (mdp_mass pr) m then ret (mdp_distance pr)
        else mdpLookup bound (S i) rest' m
    end
  else ret 0.

Definition getMassDistanceFromCenter (m : MassId) : M R :=
  let* p := getPlank in
  mdpLookup (arrayToNumber (massDistancePairs p)) 0
    (elems (massDistancePairs p)) m.

(* ------------------------------------------------------------------ *)
(** ** Plank shape and mass positions *)

(** [updatePlank].  A [Shape] has no [minY] property (its bounding box is
    [shape.bounds]), so [this.unrotatedShape.minY] is [undefined], that is
    [NaN] for [this.pivotPoint.y >= this.unrotatedShape.minY], which is
    false: the guard never throws.  [attachmentBarVector] only feeds
    [bottomCenterPoint], which nothing reads; it is not modelled. *)
Definition updatePlank : M unit :=
  let* p := getPlank in
  if nle (toNumber JVUndefined) (Some (vy (pivotPoint p))) then
    throw (Error "Pivot point cannot be below the plank.")
  else
    modifyPlank (set_shape (transformed (unrotatedShape p)
      (rotationAround (tiltAngle p) (vx (pivotPoint p)) (vy (pivotPoint p))))).

(** The callback of [this.massesOnSurface.forEach] in [updateMassPositions];
    it reads [this.getMassDistanceFromCenter] and [this.tiltAngle] through
    its own receiver [self]. *)
Definition updateMassPositionCallback (self : JSThis) (m : MassId) : M unit :=
  let* _ := this_getPlank self "getMassDistanceFromCenter" in
  let* d := getMassDistanceFromCenter m in
  let* p := this_getPlank self "tiltAngle" in
  let vectorFromCenterToMass := rotated (mkVector2 d 0) (tiltAngle p) in
  modifyMass m (set_position (jsPlus (getPlankSurfaceCenter p) vectorFromCenterToMass)) ;;
  modifyMass m (set_rotationAngle (tiltAngle p)).

(** [updateMassPositions]: the mass callback is called with [this] undefined;
    [MassForceVector.update()] only moves the indicator it owns and changes
    neither the plank nor the masses. *)
Definition updateMassPositions : M unit :=
  let* p := getPlank in
  forEach (massesOnSurface p) (updateMassPositionCallback Undefined) ;;
  let* p := getPlank in
  forEach (forceVectors p) (fun _ => ret tt).

(* ------------------------------------------------------------------ *)
(** ** Torque and angular integration *)

(** [updateNetTorque].  The mass and plank terms are commented out in the
    source; the test-and-demo branch remains.  [1 * this.turningRight ? 1 : -1]
    parses as [( 1 * this.turningRight ) ? 1 : -1]. *)
Definition updateNetTorque : M unit :=
  modifyPlank (set_currentNetTorque 0) ;;
  let* p := getPlank in
  if String.eqb (columnState p) "none" then
    (if (turningRight p && Rltb (maxTiltAngle p - tiltAngle p) (1 / 1000))
        || (negb (turningRight p) && Rltb (maxTiltAngle p + tiltAngle p) (1 / 1000))
     then modifyPlank (set_turningRight (negb (turningRight p)))
     else ret tt) ;;
    let* p := getPlank in
    modifyPlank (set_currentNetTorque (if turningRight p then 1 else -1))
  else ret tt.

(** [getTorqueDueToMasses] (not called by the plank):
    [torque += thisPlank.pivotPoint.x - mass.getPosition().x * mass.mass]. *)
Definition getTorqueDueToMasses : M JSNum :=
  let* p := getPlank in
  fun w => Ok (fold_left (fun torque m =>
                 nadd torque (nsub (Some (vx (pivotPoint p)))
                   (nmul (toNumber (jx (position (masses w m)))) (Some (mass (masses w m))))))
               (massesOnSurface p) (Some 0)) w.

(** The thresholded angular acceleration of [step]. *)
Definition stepAcceleration (torque : R) : R :=
  let a := torque / MOMENT_OF_INERTIA in
  if Rlt_dec (1 / 100000) (Rabs a) then a else 0.

(** The thresholded angular velocity of [step]. *)
Definition stepVelocity (v torque : R) : R :=
  let v' := v + stepAcceleration torque in
  if Rlt_dec (1 / 100000) (Rabs v') then v' else 0.

(** The tilt limit and levelling of [step]: new tilt angle and velocity. *)
Definition limitTilt (maxTilt t v : R) : R * R :=
  if Rlt_dec maxTilt (Rabs t) then (maxTilt * (if Rlt_dec t 0 then -1 else 1), 0)
  else if Rlt_dec (Rabs t) (1 / 10000) then (0, v)
  else (t, v).

Definition step (dt : R) : M unit :=
  let* p := getPlank in
  if userControlled p then ret tt else
  updateNetTorque ;;
  let* p := getPlank in
  let v := stepVelocity (angularVelocity p) (currentNetTorque p) in
  let previousTiltAngle := tiltAngle p in
  let '(t, v') := limitTilt (maxTiltAngle p) (previousTiltAngle + v * dt) v in
  modifyPlank (fun q => set_tiltAngle t (set_angularVelocity v' q)) ;;
  if Req_EM_T t previousTiltAngle then ret tt
  else (updatePlank ;; updateMassPositions).

Definition forceAngle (angle : R) : M unit :=
  modifyPlank (set_angularVelocity 0) ;;
  modifyPlank (set_tiltAngle angle) ;;
  updatePlank ;;
  updateMassPositions.

Definition forceToLevelAndStill : M unit := forceAngle 0.

Definition forceToMaxAndStill : M unit :=
  let* p := getPlank in forceAngle (maxTiltAngle p).

(* ------------------------------------------------------------------ *)
(** ** JavaScript array helpers *)

(** [array.splice( start, 1 )]: the array left behind and the array of
    removed elements (what [splice] returns).  A negative [start] counts
    from the end; a [start] past the end removes nothing. *)
Definition js_splice1 {A} (l : list A) (start : Z) : list A * list A :=
  let len := Z.of_nat (List.length l) in
  let s := if (start <? 0)%Z then Z.max (len + start) 0 else Z.min start len in
  let k := Z.to_nat s in
  (app (firstn k l) (skipn (S k) l), firstn 1 (skipn k l)).

(** [array.indexOf( m )] by identity, [-1] when absent. *)
Fixpoint indexOf (l : list MassId) (m : MassId) : Z :=
  match l with
  | [] => (-1)%Z
  | a :: l' =>
      if Nat.eqb a m then 0%Z
      else let i := indexOf l' m in if (i <? 0)%Z then (-1)%Z else (i + 1)%Z
  end.

(** Objects compared by [===] in [_.without]: identity of objects. *)
Inductive JSObj := OVector (v : Vector2) | OMass (m : MassId).

Definition sameObject (a b : JSObj) : bool :=
  match a, b with
  | OMass m, OMass n => Nat.eqb m n
  | _, _ => false
  end.

(** [_.without( candidateOpenLocations, value )] on the list of candidate
    vectors: keeps the candidates that are not [===] to [value]. *)
Definition without (l : list Vector2) (value : JSObj) : list Vector2 :=
  filter (fun c => negb (sameObject (OVector c) value)) l.

(* ------------------------------------------------------------------ *)
(** ** Slot resolution *)

(** [Array.prototype] has no [add] method, so [snapToLocations.add( ... )]
    throws once its argument has been evaluated. *)
Definition arrayAdd (arr : list Vector2) (v : Vector2) : M (list Vector2) :=
  throw (TypeError "snapToLocations.add is not a function").

(** The loop of [getSnapToLocations], from index [i], [n] iterations left.
    The holes of [new Array( NUM_SNAP_TO_LOCATIONS )] are not represented:
    nothing reads them, the first [add] throws. *)
Fixpoint snapLoop (p : Plank) (i n : nat) (arr : list Vector2) : M (list Vector2) :=
  match n with
  | O => ret arr
  | S n' =>
      let unrotatedPoint :=
        mkVector2 (boundsMinX (unrotatedShape p) + (INR i + 1) * INTER_SNAP_TO_MARKER_DISTANCE)
                  (boundsMaxY (unrotatedShape p)) in
      let* arr' := arrayAdd arr (rotationAround (tiltAngle p)
                      (vx (pivotPoint p)) (vy (pivotPoint p)) unrotatedPoint) in
      snapLoop p (S i) n' arr'
  end.

Definition getSnapToLocations : M (list Vector2) :=
  let* p := getPlank in snapLoop p 0 NUM_SNAP_TO_LOCATIONS [].

(** [candidateOpenLocations.splice( NUM_SNAP_TO_LOCATIONS / 2, 1 )] when the
    number of locations is odd ([17 / 2 = 8.5] is truncated to 8). *)
Definition removeCenterCandidate (c : list Vector2) : list Vector2 :=
  if Nat.eqb (Nat.modulo NUM_SNAP_TO_LOCATIONS 2) 1
  then fst (js_splice1 c (Z.of_nat (Nat.div NUM_SNAP_TO_LOCATIONS 2)))
  else c.

(** The occupancy loop: over the copy of the candidates and over the masses
    on the surface, [candidateOpenLocations = _.without( candidateOpenLocations,
    this.massesOnSurface[j] )] when the mass is near the candidate. *)
Definition excludeOccupied (w : World) (p : Plank) (cands : list Vector2) : list Vector2 :=
  fold_left (fun cs c =>
    fold_left (fun cs' m =>
      if nlt (jsDistance (position (masses w m)) (numVec c))
             (Some (INTER_SNAP_TO_MARKER_DISTANCE / 10))
      then without cs' (OMass m) else cs')
      (massesOnSurface p) cs)
    cands cands.

(** The closest candidate within [INTER_SNAP_TO_MARKER_DISTANCE]
    horizontally of [pt] ([None] for [null]). *)
Definition closestOpenLocation (pt : JSVector2) (cands : list Vector2) : option Vector2 :=
  fold_left (fun closest c =>
    if nle (option_map Rabs (nsub (Some (vx c)) (toNumber (jx pt))))
           (Some INTER_SNAP_TO_MARKER_DISTANCE) then
      match closest with
      | None => Some c
      | Some b =>
          if nlt (jsDistance (numVec c) pt) (jsDistance (numVec b) pt) then Some c
          else closest
      end
    else closest) cands None.

(** What [getOpenMassDroppedLocation] does with the candidate list once it
    has it. *)
Definition resolveDroppedLocation (w : World) (p : Plank) (cands : list Vector2)
  (pt : JSVector2) : option Vector2 :=
  closestOpenLocation pt (excludeOccupied w p (removeCenterCandidate cands)).

Definition getOpenMassDroppedLocation (pt : JSVector2) : M (option Vector2) :=
  let* cands := getSnapToLocations in
  let* p := getPlank in
  fun w => Ok (resolveDroppedLocation w p cands pt) w.

(* ------------------------------------------------------------------ *)
(** ** Attaching and detaching masses *)

(** [addMassToSurface].  The subscription [mass.userControlled.link( ... )]
    is a listener on the mass; it is not modelled. *)
Definition addMassToSurface (m : MassId) : M bool :=
  let* mo := getMass m in
  let* closest := getOpenMassDroppedLocation (position mo) in
  let* p := getPlank in
  let* mo := getMass m in
  if isPointAbovePlank p (getMiddlePoint mo) then
    match closest with
    | None => ret false
    | Some loc =>
        modifyMass m (set_position (numVec loc)) ;;
        modifyMass m (set_onPlank true) ;;
        let* p := getPlank in
        let c := getPlankSurfaceCenter p in
        let d := nmul (jsDistance c (numVec loc))
                   (Some (if nlt (toNumber (jx c)) (Some (vx loc)) then 1 else -1)) in
        modifyPlank (set_massDistancePairs
                       (mkJSArray (elems (massDistancePairs p)) (Some d))) ;;
        let* p := getPlank in
        modifyPlank (set_forceVectors (app (forceVectors p) [mkMassForceVector m])) ;;
        let* p := getPlank in
        modifyPlank (set_massesOnSurface (app (massesOnSurface p) [m])) ;;
        updateMassPositions ;;
        updateNetTorque ;;
        ret true
    end
  else ret false.

(** [assert( cond )], read with assertions enabled. *)
Definition jsAssert (b : bool) : M unit :=
  if b then ret tt else throw (Error "Assertion failed").

Definition addMassToSurfaceAt (m : MassId) (distanceFromCenter : R) : M unit :=
  if Rle_dec distanceFromCenter (PLANK_LENGTH / 2) then
    throw (Error "Warning: Attempt to add mass at invalid distance from center")
  else
    let* p := getPlank in
    let vectorToLocation :=
      jsPlus (getPlankSurfaceCenter p) (rotated (mkVector2 distanceFromCenter 0) (tiltAngle p)) in
    modifyMass m (set_position (mkJSVector2 (jx vectorToLocation)
                                  (js_add (jy vectorToLocation) (1 / 100)))) ;;
    let* mo := getMass m in
    let* p := getPlank in
    jsAssert (isPointAbovePlank p (position mo)) ;;
    let* _ := addMassToSurface m in
    ret tt.

(** The first loop of [removeMassFromSurface], at index [j] with [fuel]
    iterations left ([fuel] is [this.massDistancePairs.length], which the
    body does not change before it breaks):
    [this.massDistancePairs = this.massDistancePairs.splice( i, 1 )]. *)
Fixpoint removePairLoop (fuel j : nat) (m : MassId) : M unit :=
  match fuel with
  | O => ret tt
  | S f =>
      let* p := getPlank in
      match nth_error (elems (massDistancePairs p)) j with
      | None => throw (TypeError "Cannot read property 'mass' of undefined")
      | Some pr =>
          if Nat.eqb (mdp_mass pr) m then
            modifyPlank (set_massDistancePairs
              (mkJSArray (snd (js_splice1 (elems (massDistancePairs p)) (Z.of_nat j))) None))
          else removePairLoop f (S j) m
      end
  end.

(** The second loop of [removeMassFromSurface]: its bound is
    [this.massDistancePairs.length], its body indexes [this.forceVectors]. *)
Fixpoint removeForceVectorLoop (fuel j : nat) (m : MassId) : M unit :=
  match fuel with
  | O => ret tt
  | S f =>
      let* p := getPlank in
      match nth_error (forceVectors p) j with
      | None => throw (TypeError "Cannot read property 'mass' of undefined")
      | Some fv =>
          if Nat.eqb (fv_mass fv) m then
            modifyPlank (set_forceVectors (fst (js_splice1 (forceVectors p) (Z.of_nat j))))
          else removeForceVectorLoop f (S j) m
      end
  end.

(** [removeMassFromSurface]:
    [this.massesOnSurface = this.massesOnSurface.splice( this.massesOnSurface.indexOf( mass ), 1 )]
    keeps what [splice] returns. *)
Definition removeMassFromSurface (m : MassId) : M unit :=
  let* p := getPlank in
  modifyPlank (set_massesOnSurface
    (snd (js_splice1 (massesOnSurface p) (indexOf (massesOnSurface p) m)))) ;;
  let* p := getPlank in
  removePairLoop (List.length (elems (massDistancePairs p))) 0 m ;;
  modifyMass m (set_rotationAngle 0) ;;
  modifyMass m (set_onPlank false) ;;
  let* p := getPlank in
  removeForceVectorLoop (List.length (elems (massDistancePairs p))) 0 m ;;
  updateNetTorque.

(** [removeAllMasses]: the callback calls [thisPlank.removeMass( mass )];
    the plank has no [removeMass] method. *)
Definition removeAllMasses : M unit :=
  let* p := getPlank in
  let massesCopy := massesOnSurface p in
  forEach massesCopy (fun _ => throw (TypeError "thisPlank.removeMass is not a function")).

(** [array.forEach] with a callback that updates a captured accumulator. *)
Fixpoint forEachAcc {A} (l : list A) (f : R -> A -> M R) (acc : R) : M R :=
  match l with
  | [] => ret acc
  | a :: l' => let* acc' := f acc a in forEachAcc l' f acc'
  end.

(** The callback of [isBalanced]:
    [unCompensatedTorque += mass.mass * this.getMassDistanceFromCenter( mass )]. *)
Definition isBalancedCallback (self : JSThis) (acc : R) (m : MassId) : M R :=
  let* mo := getMass m in
  let* _ := this_getPlank self "getMassDistanceFromCenter" in
  let* d := getMassDistanceFromCenter m in
  ret (acc + mass mo * d).

Definition isBalanced : M bool :=
  let* p := getPlank in
  let* unCompensatedTorque := forEachAcc (massesOnSurface p) (isBalancedCallback Undefined) 0 in
  ret (Rltb (Rabs unCompensatedTorque) (1 / 1000000)).

(* ------------------------------------------------------------------ *)
(** ** Tick marks *)

(** [Bounds2] and its centers [centerX()], [centerY()]. *)
Record Bounds2 := mkBounds2 { minX : R; minY : R; maxX : R; maxY : R }.

Definition centerX (b : Bounds2) : R := (minX b + maxX b) / 2.
Definition centerY (b : Bounds2) : R := (minY b + maxY b) / 2.

(** A tick mark: the plank only reads its [bounds]. *)
Record TickMark := mkTickMark { tickBounds : Bounds2 }.

(** [ToNumber] of [massesOnSurface], as [i < this.massesOnSurface] computes
    it: no element gives 0; a mass is an object, joined as
    ["[object Object]"], that is [NaN] (here [None]). *)
Definition massesToNumber (l : list MassId) : option R :=
  match l with
  | [] => Some 0
  | _ :: _ => None
  end.

(** The loop of [isTickMarkOccupied] at index [i], [rest] being
    [this.massesOnSurface] from index [i] on.  The index reaches the end of
    the array only after the test against the bound (0 or [NaN]) has
    stopped the loop. *)
Fixpoint tickMarkLoop (bound : option R) (i : nat) (rest : list MassId)
  (tickMarkDistanceFromCenter : JSNum) : M bool :=
  if js_lt (INR i) bound then
    match rest with
    | [] => ret false
    | m :: rest' =>
        let* massDistanceFromCenter := getMassDistanceFromCenter m in
        if nlt (nsub tickMarkDistanceFromCenter (Some PLANK_THICKNESS))
               (Some massDistanceFromCenter)
           && nlt (Some massDistanceFromCenter)
                  (nadd tickMarkDistanceFromCenter (Some PLANK_THICKNESS))
        then ret true
        else tickMarkLoop bound (S i) rest' tickMarkDistanceFromCenter
    end
  else ret false.

Definition isTickMarkOccupied (tickMark : TickMark) : M bool :=
  let* p := getPlank in
  let tickMarkCenter :=
    mkVector2 (centerX (tickBounds tickMark)) (centerY (tickBounds tickMark)) in
  let d := jsDistance (getPlankSurfaceCenter p) (numVec tickMarkCenter) in
  let tickMarkDistanceFromCenter :=
    if nlt (Some (vx tickMarkCenter)) (toNumber (jx (getPlankSurfaceCenter p)))
    then option_map Ropp d else d in
  tickMarkLoop (massesToNumber (massesOnSurface p)) 0 (massesOnSurface p)
    tickMarkDistanceFromCenter.

(* ------------------------------------------------------------------ *)
(** ** Reachable worlds *)

(** The public operations, and the changes other objects make to the
    plank's inputs: the column-state property, the plank's
    [userControlled] property, and the position of a mass being dragged
    (a pair of numbers). *)
Inductive Op :=
| OpStep (dt : R)
| OpForceToLevelAndStill
| OpForceToMaxAndStill
| OpAddMassToSurface (m : MassId)
| OpAddMassToSurfaceAt (m : MassId) (d : R)
| OpRemoveMassFromSurface (m : MassId)
| OpRemoveAllMasses
| OpSetUserControlled (b : bool)
| OpSetColumnState (c : string)
| OpMoveMass (m : MassId) (pos : Vector2).

(** The world after an operation, whether it returned or threw. *)
Definition runOp (o : Op) (w : World) : World :=
  match o with
  | OpStep dt => res_world (step dt w)
  | OpForceToLevelAndStill => res_world (forceToLevelAndStill w)
  | OpForceToMaxAndStill => res_world (forceToMaxAndStill w)
  | OpAddMassToSurface m => res_world (addMassToSurface m w)
  | OpAddMassToSurfaceAt m d => res_world (addMassToSurfaceAt m d w)
  | OpRemoveMassFromSurface m => res_world (removeMassFromSurface m w)
  | OpRemoveAllMasses => res_world (removeAllMasses w)
  | OpSetUserControlled b => res_world (modifyPlank (set_userControlled b) w)
  | OpSetColumnState c => res_world (modifyPlank (set_columnState c) w)
  | OpMoveMass m pos => res_world (modifyMass m (set_position (numVec pos)) w)
  end.

(** Worlds reachable from a freshly constructed plank, whatever the masses.
    The constructor's [Math.asin( location.y / ( PLANK_LENGTH / 2 ) )] is a
    number when [|location.y| <= PLANK_LENGTH / 2]; above that it is [NaN],
    which the reals do not represent, so construction is taken there. *)
Inductive reachable : World -> Prop :=
| reachable_init : forall location pivot column ms,
    Rabs (vy location) <= PLANK_LENGTH / 2 ->
    reachable (mkWorld (newPlank location pivot column) ms)
| reachable_op : forall o w, reachable w -> reachable (runOp o w).

(* ------------------------------------------------------------------ *)
(** ** Sample worlds *)

(** A 5 kg mass at the origin, not on the plank. *)
Definition sampleMass : Mass := mkMass (numVec (mkVector2 0 0)) 0 5 false 0.

Definition sampleMasses : MassId -> Mass := fun _ => sampleMass.

(** A fresh plank without columns whose bottom center is 9/8 m above the
    pivot, so that its maximum tilt is [asin (1/2)]. *)
Definition freshWorld : World :=
  mkWorld (newPlank (mkVector2 0 (9 / 8)) (mkVector2 0 0) "none") sampleMasses.

(** A fresh plank built below the origin. *)
Definition lowWorld : World :=
  mkWorld (newPlank (mkVector2 0 (- (9 / 8))) (mkVector2 0 (-2)) "none") sampleMasses.

(** A fresh level plank built at the origin. *)
Definition levelWorld : World :=
  mkWorld (newPlank (mkVector2 0 0) (mkVector2 0 (-1)) "none") sampleMasses.

(** A plank on a column carrying masses 0 and 1, with their force vectors;
    the distances are in the ["[object Object]"] property, where
    [addMassToSurface] writes them. *)
Definition twoMassWorld : World :=
  mkWorld (set_massDistancePairs (mkJSArray [] (Some (Some 0)))
             (set_forceVectors [mkMassForceVector 0%nat; mkMassForceVector 1%nat]
               (set_massesOnSurface [0%nat; 1%nat]
                 (newPlank (mkVector2 0 (9 / 8)) (mkVector2 0 0) "singleColumn"))))
          sampleMasses.

(** The surface point of a level [freshWorld] plank 1/4 m right of center. *)
Definition sampleSlot : Vector2 := mkVector2 (1 / 4) (9 / 8 + PLANK_THICKNESS).

(** A plank carrying mass 0, which sits at [sampleSlot]. *)
Definition oneMassWorld : World :=
  mkWorld (set_forceVectors [mkMassForceVector 0%nat]
             (set_massesOnSurface [0%nat] (plank freshWorld)))
          (fun _ => set_position (numVec sampleSlot) sampleMass).

(** A fresh plank on a single column. *)
Definition columnWorld : World :=
  mkWorld (newPlank (mkVector2 0 (9 / 8)) (mkVector2 0 0) "singleColumn") sampleMasses.

(** A fresh plank whose pivot is above its bottom. *)
Definition pivotAboveWorld : World :=
  mkWorld (newPlank (mkVector2 0 (9 / 8)) (mkVector2 0 2) "none") sampleMasses.

(** A fresh plank with mass 0 held 2 m above the ground, 1/4 m right of
    center. *)
Definition massAboveWorld : World :=
  mkWorld (plank freshWorld) (fun _ => set_position (numVec (mkVector2 (1 / 4) 2)) sampleMass).

(* ================================================================== *)
(** * Frame lemmas *)

(** [preserves Rel m]: running [m] from any world relates it, by [Rel], to
    the world [m] leaves (returned or thrown). *)
Section Preservation.
Variable Rel : World -> World -> Prop.
Hypothesis Rel_refl : forall w, Rel w w.
Hypothesis Rel_trans : forall w1 w2 w3, Rel w1 w2 -> Rel w2 w3 -> Rel w1 w3.

Definition preserves {A} (m : M A) : Prop := forall w, Rel w (res_world (m w)).

Lemma preserves_ret {A} (a : A) : preserves (ret a).
Proof. intro w; apply Rel_refl. Qed.

Lemma preserves_throw {A} (e : Exn) : preserves (@throw A e).
Proof. intro w; apply Rel_refl. Qed.

Lemma preserves_getPlank : preserves getPlank.
Proof. intro w; apply Rel_refl. Qed.

Lemma preserves_getMass m : preserves (getMass m).
Proof. intro w; apply Rel_refl. Qed.

Lemma preserves_bind {A B} (m : M A) (k : A -> M B) :
  preserves m -> (forall a, preserves (k a)) -> preserves (bind m k).
Proof.
  intros Hm Hk w; unfold bind.
  specialize (Hm w); destruct (m w) as [a w' | e w'] eqn:E; simpl in *.
  - eapply Rel_trans; [exact Hm | apply Hk].
  - exact Hm.
Qed.

Lemma preserves_forEach {A} (l : list A) (f : A -> M unit) :
  (forall a, preserves (f a)) -> preserves (forEach l f).
Proof.
  intro Hf; induction l as [|a l IH]; simpl.
  - apply preserves_ret.
  - apply preserves_bind; auto.
Qed.

Lemma preserves_forEachAcc {A} (l : list A) (f : R -> A -> M R) acc :
  (forall r a, preserves (f r a)) -> preserves (forEachAcc l f acc).
Proof.
  intro Hf; revert acc; induction l as [|a l IH]; intro acc; simpl.
  - apply preserves_ret.
  - apply preserves_bind; auto.
Qed.

End Preservation.

(** The physical state of the plank: tilt angle, its limit, angular
    velocity. *)
Definition samePhysics (w w' : World) : Prop :=
  tiltAngle (plank w') = tiltAngle (plank w)
  /\ maxTiltAngle (plank w') = maxTiltAngle (plank w)
  /\ angularVelocity (plank w') = angularVelocity (plank w).

Lemma samePhysics_refl w : samePhysics w w.
Proof. repeat split. Qed.

Lemma samePhysics_trans w1 w2 w3 :
  samePhysics w1 w2 -> samePhysics w2 w3 -> samePhysics w1 w3.
Proof. unfold samePhysics; intros (?&?&?) (?&?&?); repeat split; congruence. Qed.

(** The attached-mass collections of the plank. *)
Definition sameCollections (w w' : World) : Prop :=
  massesOnSurface (plank w') = massesOnSurface (plank w)
  /\ forceVectors (plank w') = forceVectors (plank w)
  /\ massDistancePairs (plank w') = massDistancePairs (plank w).

Lemma sameCollections_refl w : sameCollections w w.
Proof. repeat split. Qed.

Lemma sameCollections_trans w1 w2 w3 :
  sameCollections w1 w2 -> sameCollections w2 w3 -> sameCollections w1 w3.
Proof. unfold sameCollections; intros (?&?&?) (?&?&?); repeat split; congruence. Qed.

Create HintDb frames.

(** Proves [preserves Rel m] by following the structure of [m]; [refl] and
    [trans] are the preorder lemmas of [Rel].  A leaf that leaves the
    related fields alone is closed by conversion; known lemmas are taken
    from the [frames] database. *)
Ltac frame refl trans :=
  repeat match goal with
  | |- preserves _ (bind _ _) =>
      apply preserves_bind; try exact refl; try exact trans;
      try match goal with |- forall _ : _, _ => intro end
  | |- preserves _ (forEach _ _) =>
      apply preserves_forEach; try exact refl; try exact trans;
      try match goal with |- forall _ : _, _ => intro end
  | |- preserves _ (forEachAcc _ _ _) =>
      apply preserves_forEachAcc; try exact refl; try exact trans;
      try match goal with |- forall _ : _, _ => intros end
  | |- preserves _ (if ?b then _ else _) => destruct b
  | |- preserves _ (match ?x with _ => _ end) => destruct x
  | |- preserves _ _ => solve [intro; exact (refl _)]
  | |- preserves _ _ => solve [eauto with frames]
  end.

Ltac physics_frame := frame samePhysics_refl samePhysics_trans.
Ltac collections_frame := frame sameCollections_refl sameCollections_trans.

Lemma updateNetTorque_physics : preserves samePhysics updateNetTorque.
Proof. unfold updateNetTorque; physics_frame. Qed.

Lemma updateNetTorque_collections : preserves sameCollections updateNetTorque.
Proof. unfold updateNetTorque; collections_frame. Qed.

(** [getMassDistanceFromCenter] returns 0 on every plank: its loop bound,
    the array converted to a number, is 0 or [NaN]. *)
Lemma getMassDistanceFromCenter_zero m w :
  getMassDistanceFromCenter m w = Ok 0 w.
Proof.
  unfold getMassDistanceFromCenter, bind, getPlank, arrayToNumber.
  destruct (elems (massDistancePairs (plank w))) as [|pr l]; simpl.
  - destruct (Rlt_dec 0 0) as [H|H]; [lra | reflexivity].
  - reflexivity.
Qed.

Lemma getMassDistanceFromCenter_physics m :
  preserves samePhysics (getMassDistanceFromCenter m).
Proof. intro w; rewrite getMassDistanceFromCenter_zero; apply samePhysics_refl. Qed.

Lemma getMassDistanceFromCenter_collections m :
  preserves sameCollections (getMassDistanceFromCenter m).
Proof. intro w; rewrite getMassDistanceFromCenter_zero; apply sameCollections_refl. Qed.

#[local] Hint Resolve getMassDistanceFromCenter_physics
  getMassDistanceFromCenter_collections : frames.

Lemma updatePlank_physics : preserves samePhysics updatePlank.
Proof. unfold updatePlank; physics_frame. Qed.

Lemma updatePlank_collections : preserves sameCollections updatePlank.
Proof. unfold updatePlank; collections_frame. Qed.

Lemma updateMassPositions_physics : preserves samePhysics updateMassPositions.
Proof.
  unfold updateMassPositions, updateMassPositionCallback, this_getPlank; physics_frame.
Qed.

Lemma updateMassPositions_collections : preserves sameCollections updateMassPositions.
Proof.
  unfold updateMassPositions, updateMassPositionCallback, this_getPlank; collections_frame.
Qed.

#[local] Hint Resolve updateNetTorque_physics updateNetTorque_collections
  updatePlank_physics updatePlank_collections
  updateMassPositions_physics updateMassPositions_collections : frames.

Lemma NUM_SNAP_TO_LOCATIONS_eq : NUM_SNAP_TO_LOCATIONS = 17%nat.
Proof. reflexivity. Qed.

(** [getSnapToLocations] throws on every plank: the first iteration calls
    [add] on an [Array]. *)
Lemma getSnapToLocations_throws w :
  getSnapToLocations w = Exc (TypeError "snapToLocations.add is not a function") w.
Proof.
  unfold getSnapToLocations, bind, getPlank; rewrite NUM_SNAP_TO_LOCATIONS_eq.
  reflexivity.
Qed.

Lemma getOpenMassDroppedLocation_throws pt w :
  getOpenMassDroppedLocation pt w
  = Exc (TypeError "snapToLocations.add is not a function") w.
Proof.
  unfold getOpenMassDroppedLocation, bind at 1; rewrite getSnapToLocations_throws.
  reflexivity.
Qed.

(** [addMassToSurface] throws on every plank and every mass, before any
    change. *)
Lemma addMassToSurface_throws m w :
  addMassToSurface m w = Exc (TypeError "snapToLocations.add is not a function") w.
Proof.
  unfold addMassToSurface, bind at 1, getMass; simpl.
  unfold bind at 1; rewrite getOpenMassDroppedLocation_throws. reflexivity.
Qed.

Lemma updateNetTorque_ok w : exists w1, updateNetTorque w = Ok tt w1.
Proof.
  unfold updateNetTorque, bind, modifyPlank, getPlank; simpl.
  destruct (String.eqb _ _); [destruct (_ || _)|]; simpl; eauto.
Qed.

(** [step] on a plank that is not user-controlled: the tilt angle and the
    angular velocity it leaves are those computed by [limitTilt]. *)
Lemma step_physics dt w :
  userControlled (plank w) = false ->
  exists w1, updateNetTorque w = Ok tt w1 /\
    let v := stepVelocity (angularVelocity (plank w)) (currentNetTorque (plank w1)) in
    tiltAngle (plank (res_world (step dt w)))
      = fst (limitTilt (maxTiltAngle (plank w)) (tiltAngle (plank w) + v * dt) v)
    /\ angularVelocity (plank (res_world (step dt w)))
      = snd (limitTilt (maxTiltAngle (plank w)) (tiltAngle (plank w) + v * dt) v)
    /\ maxTiltAngle (plank (res_world (step dt w))) = maxTiltAngle (plank w).
Proof.
  intro Huc.
  destruct (updateNetTorque_ok w) as [w1 E].
  pose proof (updateNetTorque_physics w) as Hp; rewrite E in Hp; simpl in Hp.
  destruct Hp as (Ht & Hm & Hv).
  exists w1; split; [exact E|].
  remember (step dt w) as r eqn:Hr.
  unfold step, bind at 1, getPlank in Hr; cbn beta iota in Hr; rewrite Huc in Hr.
  unfold bind at 1 in Hr; rewrite E in Hr.
  unfold bind at 1, getPlank in Hr; cbn beta iota in Hr.
  rewrite Ht, Hm, Hv in Hr.
  destruct (limitTilt _ _ _) as [t v'] eqn:L; simpl.
  unfold bind at 1, modifyPlank in Hr; cbn beta iota in Hr.
  destruct (Req_EM_T t (tiltAngle (plank w))) as [Heq|Hne]; subst r.
  - simpl; rewrite L; simpl; repeat split; congruence.
  - match goal with
    | |- context [ (updatePlank ;; updateMassPositions) ?w2 ] =>
        pose proof (preserves_bind samePhysics samePhysics_trans _ _
                      updatePlank_physics (fun _ => updateMassPositions_physics) w2) as H2
    end.
    destruct H2 as (H2t & H2m & H2v); simpl in H2t, H2m, H2v.
    rewrite L; simpl.
    repeat split; [rewrite H2t | rewrite H2v | rewrite H2m]; simpl; congruence.
Qed.

Lemma limitTilt_bound maxTilt t v :
  0 <= maxTilt -> Rabs (fst (limitTilt maxTilt t v)) <= maxTilt.
Proof.
  intro H0; unfold limitTilt.
  destruct (Rlt_dec maxTilt (Rabs t)); simpl.
  - destruct (Rlt_dec t 0);
      [replace (maxTilt * -1) with (- maxTilt) by ring; rewrite Rabs_Ropp
      | replace (maxTilt * 1) with maxTilt by ring];
      rewrite Rabs_pos_eq; lra.
  - destruct (Rlt_dec (Rabs t) (1 / 10000)); simpl.
    + rewrite Rabs_R0; lra.
    + lra.
Qed.

Lemma limitTilt_clamp maxTilt t v :
  maxTilt < Rabs t ->
  limitTilt maxTilt t v = (if Rlt_dec t 0 then - maxTilt else maxTilt, 0).
Proof.
  intro H; unfold limitTilt.
  destruct (Rlt_dec maxTilt (Rabs t)); [|contradiction].
  destruct (Rlt_dec t 0); f_equal; ring.
Qed.

Lemma removePairLoop_physics fuel j m : preserves samePhysics (removePairLoop fuel j m).
Proof. revert j; induction fuel as [|f IH]; intro j; simpl; physics_frame. Qed.

Lemma removeForceVectorLoop_physics fuel j m :
  preserves samePhysics (removeForceVectorLoop fuel j m).
Proof. revert j; induction fuel as [|f IH]; intro j; simpl; physics_frame. Qed.

#[local] Hint Resolve removePairLoop_physics removeForceVectorLoop_physics : frames.

Lemma removeMassFromSurface_physics m : preserves samePhysics (removeMassFromSurface m).
Proof. unfold removeMassFromSurface; physics_frame. Qed.

Lemma removeAllMasses_physics : preserves samePhysics removeAllMasses.
Proof. unfold removeAllMasses; physics_frame. Qed.

Lemma removeAllMasses_collections : preserves sameCollections removeAllMasses.
Proof. unfold removeAllMasses; collections_frame. Qed.

(** The plank itself, all fields. *)
Definition samePlank (w w' : World) : Prop := plank w' = plank w.

Lemma samePlank_refl w : samePlank w w.
Proof. reflexivity. Qed.

Lemma samePlank_trans w1 w2 w3 : samePlank w1 w2 -> samePlank w2 w3 -> samePlank w1 w3.
Proof. unfold samePlank; congruence. Qed.

Lemma addMassToSurface_samePlank m : preserves samePlank (addMassToSurface m).
Proof. intro w; rewrite addMassToSurface_throws; reflexivity. Qed.

#[local] Hint Resolve addMassToSurface_samePlank : frames.

(** [addMassToSurfaceAt] changes no field of the plank, whatever the
    distance. *)
Lemma addMassToSurfaceAt_samePlank m d : preserves samePlank (addMassToSurfaceAt m d).
Proof.
  unfold addMassToSurfaceAt, jsAssert; frame samePlank_refl samePlank_trans.
Qed.

Lemma addMassToSurfaceAt_physics m d : preserves samePhysics (addMassToSurfaceAt m d).
Proof.
  intro w; pose proof (addMassToSurfaceAt_samePlank m d w) as H.
  unfold samePlank in H; unfold samePhysics; rewrite H; repeat split.
Qed.

Lemma addMassToSurfaceAt_collections m d :
  preserves sameCollections (addMassToSurfaceAt m d).
Proof.
  intro w; pose proof (addMassToSurfaceAt_samePlank m d w) as H.
  unfold samePlank in H; unfold sameCollections; rewrite H; repeat split.
Qed.

(** [forceAngle( angle )] leaves the tilt angle at [angle] and the angular
    velocity at 0. *)
Lemma forceAngle_physics angle w :
  tiltAngle (plank (res_world (forceAngle angle w))) = angle
  /\ angularVelocity (plank (res_world (forceAngle angle w))) = 0
  /\ maxTiltAngle (plank (res_world (forceAngle angle w))) = maxTiltAngle (plank w).
Proof.
  unfold forceAngle, bind at 1, modifyPlank at 1; cbn beta iota.
  unfold bind at 1, modifyPlank at 1; cbn beta iota; cbn [plank masses].
  match goal with
  | |- context [ (updatePlank ;; updateMassPositions) ?w2 ] =>
      pose proof (preserves_bind samePhysics samePhysics_trans _ _
                    updatePlank_physics (fun _ => updateMassPositions_physics) w2) as H2
  end.
  destruct H2 as (H2t & H2m & H2v); simpl in H2t, H2m, H2v.
  repeat split; assumption.
Qed.

Lemma forceAngle_collections angle : preserves sameCollections (forceAngle angle).
Proof. unfold forceAngle; collections_frame. Qed.

Lemma step_collections dt : preserves sameCollections (step dt).
Proof. unfold step; collections_frame. Qed.

(** No mass attached: the three collections are empty. *)
Definition NoMassAttached (w : World) : Prop :=
  massesOnSurface (plank w) = [] /\ forceVectors (plank w) = []
  /\ elems (massDistancePairs (plank w)) = [].

Lemma sameCollections_NoMassAttached w w' :
  sameCollections w w' -> NoMassAttached w -> NoMassAttached w'.
Proof.
  unfold sameCollections, NoMassAttached; intros (H1&H2&H3) (E1&E2&E3).
  rewrite H1, H2, H3; auto.
Qed.

Lemma removeMassFromSurface_NoMassAttached m w :
  NoMassAttached w -> NoMassAttached (res_world (removeMassFromSurface m w)).
Proof.
  destruct w as [p ms]; destruct p; intros (E1&E2&E3); simpl in E1, E2, E3; subst.
  destruct massDistancePairs0 as [el key]; simpl in E3; subst.
  unfold removeMassFromSurface.
  cbn -[updateNetTorque].
  match goal with
  | |- NoMassAttached (res_world (updateNetTorque ?w2)) =>
      apply (sameCollections_NoMassAttached w2); [apply updateNetTorque_collections|]
  end.
  repeat split; simpl; auto.
Qed.

#[local] Hint Resolve forceAngle_collections : frames.

Lemma forceToMaxAndStill_eq w :
  forceToMaxAndStill w = forceAngle (maxTiltAngle (plank w)) w.
Proof. reflexivity. Qed.

Lemma step_userControlled dt w :
  userControlled (plank w) = true -> step dt w = Ok tt w.
Proof. intro H; unfold step, bind at 1, getPlank; cbn beta iota; rewrite H; reflexivity. Qed.

Lemma runOp_NoMassAttached o w : NoMassAttached w -> NoMassAttached (runOp o w).
Proof.
  intro H; destruct o; cbn [runOp].
  - exact (sameCollections_NoMassAttached _ _ (step_collections dt w) H).
  - exact (sameCollections_NoMassAttached _ _ (forceAngle_collections 0 w) H).
  - rewrite forceToMaxAndStill_eq.
    exact (sameCollections_NoMassAttached _ _ (forceAngle_collections _ w) H).
  - rewrite addMassToSurface_throws; exact H.
  - exact (sameCollections_NoMassAttached _ _ (addMassToSurfaceAt_collections m d w) H).
  - apply removeMassFromSurface_NoMassAttached; exact H.
  - exact (sameCollections_NoMassAttached _ _ (removeAllMasses_collections w) H).
  - exact H.
  - exact H.
  - exact H.
Qed.

(** Every reachable plank carries no mass. *)
Lemma reachable_NoMassAttached w : reachable w -> NoMassAttached w.
Proof.
  induction 1 as [location pivot column ms _ | o w _ IH].
  - repeat split.
  - apply runOp_NoMassAttached; exact IH.
Qed.

(** One operation keeps [maxTiltAngle], and keeps the tilt angle within it
    when it was. *)
Lemma runOp_tilt o w :
  maxTiltAngle (plank (runOp o w)) = maxTiltAngle (plank w)
  /\ (0 <= maxTiltAngle (plank w) ->
      Rabs (tiltAngle (plank w)) <= maxTiltAngle (plank w) ->
      Rabs (tiltAngle (plank (runOp o w))) <= maxTiltAngle (plank w)).
Proof.
  assert (Keep : forall w', samePhysics w w' ->
            maxTiltAngle (plank w') = maxTiltAngle (plank w)
            /\ (0 <= maxTiltAngle (plank w) ->
                Rabs (tiltAngle (plank w)) <= maxTiltAngle (plank w) ->
                Rabs (tiltAngle (plank w')) <= maxTiltAngle (plank w))).
  { intros w' (Ht & Hm & _); rewrite Ht, Hm; auto. }
  destruct o; cbn [runOp].
  - destruct (userControlled (plank w)) eqn:U.
    + rewrite step_userControlled by exact U; simpl; auto.
    + destruct (step_physics dt w U) as (w1 & _ & Ht & _ & Hm).
      rewrite Ht, Hm; split; [reflexivity | intros H0 _; apply limitTilt_bound; exact H0].
  - unfold forceToLevelAndStill.
    destruct (forceAngle_physics 0 w) as (Ht & _ & Hm).
    rewrite Ht, Hm, Rabs_R0; auto.
  - rewrite forceToMaxAndStill_eq.
    destruct (forceAngle_physics (maxTiltAngle (plank w)) w) as (Ht & _ & Hm).
    rewrite Ht, Hm; split; [reflexivity | intros H0 _; rewrite Rabs_pos_eq by exact H0; lra].
  - rewrite addMassToSurface_throws; simpl; auto.
  - apply Keep, addMassToSurfaceAt_physics.
  - apply Keep, removeMassFromSurface_physics.
  - apply Keep, removeAllMasses_physics.
  - simpl; auto.
  - simpl; auto.
  - simpl; auto.
Qed.

(** On every reachable world with a nonnegative limit the tilt is within it. *)
Lemma reachable_tilt w :
  reachable w -> 0 <= maxTiltAngle (plank w) ->
  Rabs (tiltAngle (plank w)) <= maxTiltAngle (plank w).
Proof.
  induction 1 as [location pivot column ms _ | o w _ IH]; intro H0.
  - simpl; rewrite Rabs_R0; exact H0.
  - destruct (runOp_tilt o w) as [Hm Hb].
    rewrite Hm in *; apply Hb; [exact H0 | apply IH; exact H0].
Qed.

(* ------------------------------------------------------------------ *)
(** ** Computations on the sample worlds *)

Lemma MOMENT_OF_INERTIA_eq : MOMENT_OF_INERTIA = 8101 / 64.
Proof. unfold MOMENT_OF_INERTIA, PLANK_MASS, PLANK_LENGTH, PLANK_THICKNESS; field. Qed.

Lemma PI_gt_3 : 3 < PI.
Proof. pose proof PI2_3_2; lra. Qed.

Lemma asin_half : asin (1 / 2) = PI / 6.
Proof.
  rewrite <- sin_PI6; apply asin_sin; pose proof PI_RGT_0; split; lra.
Qed.

Lemma freshWorld_maxTilt : maxTiltAngle (plank freshWorld) = PI / 6.
Proof.
  simpl; replace (9 / 8 / (PLANK_LENGTH / 2)) with (1 / 2)
    by (unfold PLANK_LENGTH; field).
  exact asin_half.
Qed.

Lemma lowWorld_maxTilt : maxTiltAngle (plank lowWorld) = - (PI / 6).
Proof.
  simpl; replace (- (9 / 8) / (PLANK_LENGTH / 2)) with (- (1 / 2))
    by (unfold PLANK_LENGTH; field).
  rewrite asin_opp, asin_half; reflexivity.
Qed.

Lemma levelWorld_maxTilt : maxTiltAngle (plank levelWorld) = 0.
Proof.
  simpl; replace (0 / (PLANK_LENGTH / 2)) with 0 by (unfold PLANK_LENGTH; field).
  exact asin_0.
Qed.

(** Without columns, a plank turning right away from its limit gets the
    demonstration torque 1. *)
Lemma updateNetTorque_turning_right w :
  columnState (plank w) = "none"%string -> turningRight (plank w) = true ->
  1 / 1000 <= maxTiltAngle (plank w) - tiltAngle (plank w) ->
  exists w1, updateNetTorque w = Ok tt w1 /\ currentNetTorque (plank w1) = 1.
Proof.
  intros Hc Ht Hd.
  unfold updateNetTorque, bind, modifyPlank, getPlank; cbn [plank masses].
  destruct w as [p ms]; destruct p; cbn in Hc, Ht, Hd |- *; subst.
  cbn [String.eqb Ascii.eqb Bool.eqb andb negb orb].
  unfold Rltb; destruct (Rlt_dec _ _) as [Hlt|_]; [lra|].
  cbn; eexists; split; reflexivity.
Qed.

Lemma stepVelocity_rest_1 : stepVelocity 0 1 = 64 / 8101.
Proof.
  unfold stepVelocity, stepAcceleration; rewrite MOMENT_OF_INERTIA_eq.
  replace (1 / (8101 / 64)) with (64 / 8101) by field.
  destruct (Rlt_dec (1 / 100000) (Rabs (64 / 8101))) as [_|H];
    [| rewrite Rabs_pos_eq in H by lra; lra].
  replace (0 + 64 / 8101) with (64 / 8101) by ring.
  destruct (Rlt_dec (1 / 100000) (Rabs (64 / 8101))) as [_|H];
    [reflexivity | rewrite Rabs_pos_eq in H by lra; lra].
Qed.

(** With a negative limit, [limitTilt] always leaves a tilt beyond it. *)
Lemma limitTilt_negative maxTilt t v :
  maxTilt < 0 -> maxTilt < Rabs (fst (limitTilt maxTilt t v)).
Proof.
  intro H; pose proof (Rabs_pos t) as Ht; unfold limitTilt.
  destruct (Rlt_dec maxTilt (Rabs t)) as [_|C]; [|lra]; simpl.
  destruct (Rlt_dec t 0).
  - replace (maxTilt * -1) with (- maxTilt) by ring.
    rewrite Rabs_Ropp, Rabs_left by lra; lra.
  - rewrite Rmult_1_r, Rabs_left by lra; lra.
Qed.

(** [_.without] with a mass never removes a candidate vector. *)
Lemma without_mass l m : without l (OMass m) = l.
Proof.
  induction l as [|c l IH]; [reflexivity|].
  unfold without in *; simpl; f_equal; exact IH.
Qed.

Lemma excludeOccupied_id w p cands : excludeOccupied w p cands = cands.
Proof.
  unfold excludeOccupied.
  assert (Inner : forall c ms cs, fold_left (fun cs' m =>
      if nlt (jsDistance (position (masses w m)) (numVec c))
             (Some (INTER_SNAP_TO_MARKER_DISTANCE / 10))
      then without cs' (OMass m) else cs') ms cs = cs).
  { intros c ms; induction ms as [|m ms IH]; intro cs; simpl; [reflexivity|].
    destruct (nlt _ _); [rewrite without_mass|]; apply IH. }
  assert (Outer : forall l acc, fold_left (fun cs c => fold_left (fun cs' m =>
      if nlt (jsDistance (position (masses w m)) (numVec c))
             (Some (INTER_SNAP_TO_MARKER_DISTANCE / 10))
      then without cs' (OMass m) else cs') (massesOnSurface p) cs) l acc = acc).
  { intro l; induction l as [|c l IH]; intro acc; simpl; [reflexivity|].
    rewrite Inner; apply IH. }
  apply Outer.
Qed.

(** Geometry of the level plank of [freshWorld]: decide the comparisons of
    reals, innermost first. *)
Ltac no_decision t :=
  lazymatch t with
  | context [Rle_dec _ _] => fail
  | context [Rlt_dec _ _] => fail
  | _ => idtac
  end.

Ltac decide_reals :=
  unfold Rleb, Rltb, Rmin, Rmax;
  repeat match goal with
         | |- context [Rle_dec ?a ?b] =>
             no_decision a; no_decision b;
             destruct (Rle_dec a b)
         | |- context [Rlt_dec ?a ?b] =>
             no_decision a; no_decision b;
             destruct (Rlt_dec a b)
         end;
  simpl; try reflexivity;
  unfold PLANK_LENGTH, PLANK_THICKNESS, INTER_SNAP_TO_MARKER_DISTANCE in *; lra.

Lemma freshWorld_minX : boundsMinX (unrotatedShape (plank freshWorld)) = - (9 / 4).
Proof. unfold boundsMinX, fold_bound; simpl; decide_reals. Qed.

Lemma freshWorld_maxX : boundsMaxX (unrotatedShape (plank freshWorld)) = 9 / 4.
Proof. unfold boundsMaxX, fold_bound; simpl; decide_reals. Qed.

Lemma freshWorld_maxY : boundsMaxY (unrotatedShape (plank freshWorld)) = 9 / 8 + 1 / 20.
Proof. unfold boundsMaxY, fold_bound; simpl; decide_reals. Qed.

(** The surface center's [x] is a string and its [y] is [NaN]. *)
Lemma getPlankSurfaceCenter_eq p :
  getPlankSurfaceCenter p
  = mkJSVector2 (JVVectorString (bottomCenterLocation p)
                   [vx (rotated (mkVector2 0 PLANK_THICKNESS) (tiltAngle p))])
                JVNaN.
Proof. reflexivity. Qed.

(** Hence [getSurfaceYValue] is [NaN] whatever its argument ... *)
Lemma getSurfaceYValue_NaN p x : getSurfaceYValue p x = None.
Proof. unfold getSurfaceYValue; destruct x; reflexivity. Qed.

(** ... and no point is above the plank for [isPointAbovePlank]. *)
Lemma isPointAbovePlank_false p pt : isPointAbovePlank p pt = false.
Proof.
  unfold isPointAbovePlank; rewrite getSurfaceYValue_NaN.
  rewrite andb_false_r; reflexivity.
Qed.

(* ================================================================== *)
(** * Claims *)

(** C1: the net torque that [step] integrates is not the torque of the
    masses.  On a fresh plank without columns, with no mass and the pivot
    right below the plank's center (so the sum over the masses and the
    plank's own term are both 0), [updateNetTorque] sets the torque to 1,
    and one [step] of 1 s moves the tilt angle from 0 to 64/8101. *)
Lemma C1_counterexample :
  massesOnSurface (plank freshWorld) = []
  /\ vx (pivotPoint (plank freshWorld)) = vx (bottomCenterLocation (plank freshWorld))
  /\ (exists w1, updateNetTorque freshWorld = Ok tt w1 /\ currentNetTorque (plank w1) = 1)
  /\ tiltAngle (plank freshWorld) = 0
  /\ tiltAngle (plank (res_world (step 1 freshWorld))) = 64 / 8101.
Proof.
  pose proof PI_gt_3 as Hpi.
  assert (Hu : exists w1, updateNetTorque freshWorld = Ok tt w1
                          /\ currentNetTorque (plank w1) = 1).
  { apply updateNetTorque_turning_right; try reflexivity.
    rewrite freshWorld_maxTilt; change (tiltAngle (plank freshWorld)) with 0; lra. }
  destruct Hu as (w1 & E & T).
  destruct (step_physics 1 freshWorld eq_refl) as (w1' & E' & Ht & _ & _).
  rewrite E in E'; injection E' as <-.
  split; [reflexivity|]; split; [reflexivity|]; split; [exists w1; auto|].
  split; [reflexivity|].
  cbv zeta in Ht; rewrite Ht, T, freshWorld_maxTilt.
  change (angularVelocity (plank freshWorld)) with 0.
  change (tiltAngle (plank freshWorld)) with 0.
  rewrite stepVelocity_rest_1.
  replace (0 + 64 / 8101 * 1) with (64 / 8101) by ring.
  unfold limitTilt; rewrite Rabs_pos_eq by lra.
  destruct (Rlt_dec (PI / 6) (64 / 8101)); [lra|].
  destruct (Rlt_dec (64 / 8101) (1 / 10000)); [lra|].
  reflexivity.
Qed.

(** C2: on every reachable world whose tilt limit is nonnegative (a plank
    built with [0 <= location.y]), the tilt angle is within the limit; a
    [step], whatever [dt], keeps the limit and the bound; and when the
    integrated tilt passes the limit, [step] sets the tilt to the limit with
    the sign of the integrated tilt and the angular velocity to 0. *)
Theorem C2_tilt_bounded w dt :
  reachable w -> 0 <= maxTiltAngle (plank w) ->
  Rabs (tiltAngle (plank w)) <= maxTiltAngle (plank w)
  /\ maxTiltAngle (plank (res_world (step dt w))) = maxTiltAngle (plank w)
  /\ Rabs (tiltAngle (plank (res_world (step dt w)))) <= maxTiltAngle (plank w)
  /\ (userControlled (plank w) = false ->
      exists w1, updateNetTorque w = Ok tt w1 /\
        let v := stepVelocity (angularVelocity (plank w)) (currentNetTorque (plank w1)) in
        let t := tiltAngle (plank w) + v * dt in
        maxTiltAngle (plank w) < Rabs t ->
        tiltAngle (plank (res_world (step dt w)))
          = (if Rlt_dec t 0 then - maxTiltAngle (plank w) else maxTiltAngle (plank w))
        /\ angularVelocity (plank (res_world (step dt w))) = 0).
Proof.
  intros R H0.
  pose proof (reachable_tilt w R H0) as B.
  destruct (runOp_tilt (OpStep dt) w) as [Hm Hb]; cbn [runOp] in Hm, Hb.
  split; [exact B|]; split; [exact Hm|]; split; [exact (Hb H0 B)|].
  intro U; destruct (step_physics dt w U) as (w1 & E & Ht & Hv & _).
  exists w1; split; [exact E|]; cbv zeta in Ht, Hv |- *; intro Hgt.
  rewrite Ht, Hv, limitTilt_clamp by exact Hgt; split; reflexivity.
Qed.

Lemma C2_witness :
  reachable levelWorld /\ 0 <= maxTiltAngle (plank levelWorld)
  /\ Rabs (tiltAngle (plank (res_world (step 1 levelWorld)))) <= maxTiltAngle (plank levelWorld).
Proof.
  assert (R : reachable levelWorld)
    by (apply reachable_init; simpl; rewrite Rabs_R0; unfold PLANK_LENGTH; lra).
  assert (H0 : 0 <= maxTiltAngle (plank levelWorld)) by (rewrite levelWorld_maxTilt; lra).
  split; [exact R|]; split; [exact H0|].
  exact (proj1 (proj2 (proj2 (C2_tilt_bounded levelWorld 1 R H0)))).
Defined.

(** C2 (counterexample): a plank built 9/8 m below the origin is reachable
    with tilt limit [asin (-1/2) < 0]; after one [step] its tilt angle is
    beyond that limit. *)
Lemma C2_counterexample :
  reachable lowWorld
  /\ maxTiltAngle (plank lowWorld) = - (PI / 6)
  /\ reachable (runOp (OpStep 1) lowWorld)
  /\ maxTiltAngle (plank (runOp (OpStep 1) lowWorld))
       < Rabs (tiltAngle (plank (runOp (OpStep 1) lowWorld))).
Proof.
  assert (R : reachable lowWorld).
  { apply reachable_init; simpl; unfold Rabs, PLANK_LENGTH;
      destruct (Rcase_abs _); lra. }
  split; [exact R|]; split; [exact lowWorld_maxTilt|].
  split; [apply reachable_op; exact R|].
  destruct (runOp_tilt (OpStep 1) lowWorld) as [Hm _]; rewrite Hm.
  cbn [runOp].
  destruct (step_physics 1 lowWorld eq_refl) as (w1 & _ & Ht & _).
  cbv zeta in Ht; rewrite Ht.
  apply limitTilt_negative; rewrite lowWorld_maxTilt; pose proof PI_RGT_0; lra.
Qed.

(** C3: on every reachable world the attached masses, the force vectors
    and the mass-distance pairs are all empty; so each attached mass has a
    distance pair and exactly one force vector, and the force vectors list
    the attached masses in order. *)
Theorem C3_collections_correspond w :
  reachable w ->
  NoMassAttached w
  /\ map fv_mass (forceVectors (plank w)) = massesOnSurface (plank w)
  /\ (forall m, In m (massesOnSurface (plank w)) ->
        (exists pr, In pr (elems (massDistancePairs (plank w))) /\ mdp_mass pr = m)
        /\ List.length (filter (fun fv => Nat.eqb (fv_mass fv) m) (forceVectors (plank w)))
           = 1%nat).
Proof.
  intro R; pose proof (reachable_NoMassAttached w R) as N.
  split; [exact N|]; destruct N as (E1 & E2 & _).
  rewrite E1, E2; split; [reflexivity | intros m []].
Qed.

Lemma C3_witness : reachable freshWorld /\ NoMassAttached freshWorld.
Proof.
  assert (R : reachable freshWorld).
  { apply reachable_init; simpl; unfold Rabs, PLANK_LENGTH;
      destruct (Rcase_abs _); lra. }
  split; [exact R | exact (proj1 (C3_collections_correspond freshWorld R))].
Defined.

(** C4: [addMassToSurfaceAt] rejects a distance within the plank: at
    distance 1/2 m from the center of a fresh plank it throws the
    invalid-distance error. *)
Lemma C4_counterexample :
  Rabs (1 / 2) <= PLANK_LENGTH / 2
  /\ addMassToSurfaceAt 0%nat (1 / 2) freshWorld
     = Exc (Error "Warning: Attempt to add mass at invalid distance from center") freshWorld.
Proof.
  split.
  - rewrite Rabs_pos_eq by lra; unfold PLANK_LENGTH; lra.
  - unfold addMassToSurfaceAt; destruct (Rle_dec _ _) as [_|H];
      [reflexivity | exfalso; apply H; unfold PLANK_LENGTH; lra].
Qed.

(** C5: on a plank carrying masses 0 and 1, removing the unattached mass 2
    leaves only mass 1 attached; removing mass 0 leaves only mass 0
    attached and keeps both force vectors. *)
Lemma C5_counterexample :
  massesOnSurface (plank twoMassWorld) = [0%nat; 1%nat]
  /\ massesOnSurface (plank (res_world (removeMassFromSurface 2%nat twoMassWorld))) = [1%nat]
  /\ massesOnSurface (plank (res_world (removeMassFromSurface 0%nat twoMassWorld))) = [0%nat]
  /\ map fv_mass (forceVectors (plank (res_world (removeMassFromSurface 0%nat twoMassWorld))))
     = [0%nat; 1%nat].
Proof. repeat split; reflexivity. Qed.

(** C6: [getOpenMassDroppedLocation] throws on every call; and the slot
    filtering it would apply keeps a slot that an attached mass occupies. *)
Lemma C6_counterexample :
  getOpenMassDroppedLocation (numVec sampleSlot) freshWorld
    = Exc (TypeError "snapToLocations.add is not a function") freshWorld
  /\ In 0%nat (massesOnSurface (plank oneMassWorld))
  /\ position (masses oneMassWorld 0%nat) = numVec sampleSlot
  /\ resolveDroppedLocation oneMassWorld (plank oneMassWorld) [sampleSlot] (numVec sampleSlot)
     = Some sampleSlot.
Proof.
  split; [apply getOpenMassDroppedLocation_throws|].
  split; [left; reflexivity|]; split; [reflexivity|].
  unfold resolveDroppedLocation; rewrite excludeOccupied_id.
  unfold removeCenterCandidate; rewrite NUM_SNAP_TO_LOCATIONS_eq; simpl.
  unfold closestOpenLocation; simpl.
  destruct (Rle_dec _ _) as [_|H]; [reflexivity|].
  exfalso; apply H; unfold Rabs, INTER_SNAP_TO_MARKER_DISTANCE;
    destruct (Rcase_abs _); lra.
Qed.

(** C7: [isBalanced] on a plank carrying one mass throws a [TypeError]:
    its callback reads [this.getMassDistanceFromCenter] with [this]
    undefined. *)
Lemma C7_counterexample :
  massesOnSurface (plank oneMassWorld) = [0%nat]
  /\ isBalanced oneMassWorld
     = Exc (TypeError "Cannot read property 'getMassDistanceFromCenter' of undefined")
           oneMassWorld.
Proof. split; reflexivity. Qed.

(** C8: [removeAllMasses] on a plank carrying one mass throws a
    [TypeError] and leaves the mass attached. *)
Lemma C8_counterexample :
  removeAllMasses oneMassWorld
    = Exc (TypeError "thisPlank.removeMass is not a function") oneMassWorld
  /\ massesOnSurface (plank oneMassWorld) = [0%nat].
Proof. split; reflexivity. Qed.

(** C9: a mass held above a fresh plank, over the tenth snap location
    (1/4 m right of center, not the removed center one), is not attached:
    its middle point is (1/4, 2), within the plank's horizontal extent and
    above its top, yet [addMassToSurface] throws a [TypeError] instead of
    returning.  The code's own test [isPointAbovePlank] is false there
    too, as it is for every point. *)
Lemma C9_counterexample :
  massesOnSurface (plank massAboveWorld) = []
  /\ getMiddlePoint (masses massAboveWorld 0%nat) = numVec (mkVector2 (1 / 4) 2)
  /\ boundsMinX (shape (plank massAboveWorld)) < 1 / 4 < boundsMaxX (shape (plank massAboveWorld))
  /\ boundsMaxY (shape (plank massAboveWorld)) < 2
  /\ 1 / 4
     = boundsMinX (unrotatedShape (plank massAboveWorld)) + (INR 9 + 1) * INTER_SNAP_TO_MARKER_DISTANCE
  /\ addMassToSurface 0%nat massAboveWorld
     = Exc (TypeError "snapToLocations.add is not a function") massAboveWorld
  /\ isPointAbovePlank (plank massAboveWorld) (getMiddlePoint (masses massAboveWorld 0%nat))
     = false.
Proof.
  change (shape (plank massAboveWorld)) with (unrotatedShape (plank freshWorld)).
  change (unrotatedShape (plank massAboveWorld)) with (unrotatedShape (plank freshWorld)).
  rewrite freshWorld_minX, freshWorld_maxX, freshWorld_maxY.
  split; [reflexivity|].
  split; [unfold getMiddlePoint, numVec; cbn; rewrite ?Rplus_0_r; reflexivity|].
  split; [lra|]; split; [lra|].
  split; [simpl; unfold INTER_SNAP_TO_MARKER_DISTANCE; lra|].
  split; [apply addMassToSurface_throws | apply isPointAbovePlank_false].
Qed.

(** C10: on every reachable world [getMassDistanceFromCenter] returns 0 for
    every mass, and [updateMassPositions] puts every attached mass at the
    surface center (no mass is attached there). *)
Theorem C10_mass_distance_zero w :
  reachable w ->
  (forall m, getMassDistanceFromCenter m w = Ok 0 w)
  /\ massesOnSurface (plank w) = []
  /\ (forall m, In m (massesOnSurface (plank w)) ->
        position (masses (res_world (updateMassPositions w)) m)
        = getPlankSurfaceCenter (plank w)).
Proof.
  intro R; destruct (reachable_NoMassAttached w R) as (E1 & _ & _).
  split; [intro m; apply getMassDistanceFromCenter_zero|].
  split; [exact E1|]; rewrite E1; intros m [].
Qed.

Lemma C10_witness :
  reachable freshWorld /\ getMassDistanceFromCenter 3%nat freshWorld = Ok 0 freshWorld.
Proof.
  assert (R : reachable freshWorld).
  { apply reachable_init; simpl; unfold Rabs, PLANK_LENGTH;
      destruct (Rcase_abs _); lra. }
  split; [exact R | exact (proj1 (C10_mass_distance_zero freshWorld R) 3%nat)].
Defined.

(* ================================================================== *)
(** * Further properties of the plank *)

(** ** Net torque and integration *)

Lemma updateNetTorque_column w :
  columnState (plank w) <> "none"%string ->
  updateNetTorque w = Ok tt (mkWorld (set_currentNetTorque 0 (plank w)) (masses w)).
Proof.
  intro C; destruct w as [p ms]; destruct p; cbn in C |- *.
  destruct (String.eqb_spec columnState0 "none"); [contradiction | reflexivity].
Qed.

Lemma updateNetTorque_none w :
  columnState (plank w) = "none"%string ->
  let p := plank w in
  let tr := if (turningRight p && Rltb (maxTiltAngle p - tiltAngle p) (1 / 1000))
               || (negb (turningRight p) && Rltb (maxTiltAngle p + tiltAngle p) (1 / 1000))
            then negb (turningRight p) else turningRight p in
  updateNetTorque w
  = Ok tt (mkWorld (set_currentNetTorque (if tr then 1 else -1) (set_turningRight tr p))
                   (masses w)).
Proof.
  intro C; destruct w as [p ms]; destruct p; cbn in C |- *; subst.
  destruct turningRight0; cbn; destruct (Rltb _ _); reflexivity.
Qed.




Lemma stepVelocity_threshold v torque :
  stepVelocity v torque = 0 \/ 1 / 100000 < Rabs (stepVelocity v torque).
Proof.
  unfold stepVelocity; destruct (Rlt_dec _ _); [right; assumption | left; reflexivity].
Qed.

Lemma limitTilt_thresholds maxTilt t v :
  (v = 0 \/ 1 / 100000 < Rabs v) ->
  (snd (limitTilt maxTilt t v) = 0 \/ 1 / 100000 < Rabs (snd (limitTilt maxTilt t v)))
  /\ (fst (limitTilt maxTilt t v) = 0
      \/ Rabs (fst (limitTilt maxTilt t v)) = Rabs maxTilt
      \/ 1 / 10000 <= Rabs (fst (limitTilt maxTilt t v))).
Proof.
  intro Hv; unfold limitTilt.
  destruct (Rlt_dec maxTilt (Rabs t)).
  - simpl; split; [left; reflexivity|right; left].
    destruct (Rlt_dec t 0).
    + replace (maxTilt * -1) with (- maxTilt) by ring; apply Rabs_Ropp.
    + rewrite Rmult_1_r; reflexivity.
  - destruct (Rlt_dec (Rabs t) (1 / 10000)); simpl; split; auto.
    right; right; lra.
Qed.

(** ** Extras: net torque and integration *)

(** With a support column, [updateNetTorque] sets the net torque to 0 and
    changes nothing else. *)
Theorem X1_updateNetTorque_with_column w :
  columnState (plank w) <> "none"%string ->
  updateNetTorque w = Ok tt (mkWorld (set_currentNetTorque 0 (plank w)) (masses w)).
Proof. apply updateNetTorque_column. Qed.

Lemma X1_witness :
  columnState (plank columnWorld) <> "none"%string
  /\ updateNetTorque columnWorld
     = Ok tt (mkWorld (set_currentNetTorque 0 (plank columnWorld)) (masses columnWorld)).
Proof.
  assert (C : columnState (plank columnWorld) <> "none"%string) by discriminate.
  split; [exact C | exact (X1_updateNetTorque_with_column columnWorld C)].
Defined.

(** Without columns, [updateNetTorque] sets the net torque to 1 when the
    plank turns right and to -1 when it turns left; it reverses the
    direction exactly when the plank is within 0.001 rad of the limit it is
    turning towards; it changes no other field and no mass. *)
Theorem X2_updateNetTorque_without_columns w :
  columnState (plank w) = "none"%string ->
  exists p', updateNetTorque w = Ok tt (mkWorld p' (masses w))
    /\ p' = set_currentNetTorque (currentNetTorque p')
              (set_turningRight (turningRight p') (plank w))
    /\ ((currentNetTorque p' = 1 /\ turningRight p' = true)
        \/ (currentNetTorque p' = -1 /\ turningRight p' = false))
    /\ (turningRight p' <> turningRight (plank w) <->
        (turningRight (plank w) = true
           /\ maxTiltAngle (plank w) - tiltAngle (plank w) < 1 / 1000)
        \/ (turningRight (plank w) = false
           /\ maxTiltAngle (plank w) + tiltAngle (plank w) < 1 / 1000)).
Proof.
  intro C; rewrite (updateNetTorque_none w C); cbv zeta.
  eexists; split; [reflexivity|].
  destruct w as [p ms]; destruct p; cbn -[Rltb]; clear C.
  destruct turningRight0; cbn -[Rltb]; unfold Rltb;
    destruct (Rlt_dec _ _); cbn; (split; [reflexivity|]);
    (split; [auto|]); split; intro H;
    repeat match goal with
           | H : _ \/ _ |- _ => destruct H
           | H : _ /\ _ |- _ => destruct H
           end;
    try congruence; try lra; auto.
Qed.

Lemma X2_witness :
  columnState (plank freshWorld) = "none"%string
  /\ exists p', updateNetTorque freshWorld = Ok tt (mkWorld p' (masses freshWorld)).
Proof.
  assert (C : columnState (plank freshWorld) = "none"%string) by reflexivity.
  split; [exact C|].
  destruct (X2_updateNetTorque_without_columns freshWorld C) as (p' & E & _).
  exists p'; exact E.
Defined.



(** ** Shape and mass positions *)

Lemma forEach_ret {A} (l : list A) w : forEach l (fun _ => ret tt) w = Ok tt w.
Proof. induction l as [|a l IH]; [reflexivity|]; simpl; unfold bind, ret at 1; exact IH. Qed.

Lemma updateMassPositions_eq w :
  updateMassPositions w
  = match massesOnSurface (plank w) with
    | [] => Ok tt w
    | _ :: _ => Exc (TypeError "Cannot read property 'getMassDistanceFromCenter' of undefined") w
    end.
Proof.
  unfold updateMassPositions, bind at 1, getPlank at 1; cbn beta iota.
  destruct (massesOnSurface (plank w)) as [|m l].
  - unfold forEach at 1, ret at 1, bind, getPlank; apply forEach_ret.
  - reflexivity.
Qed.

Lemma rotationAround_0 px py v : rotationAround 0 px py v = v.
Proof.
  unfold rotationAround, rotated, v2plus, v2minus; rewrite cos_0, sin_0.
  destruct v as [x y]; cbn [vx vy]; f_equal; ring.
Qed.

Lemma transformed_rotation_0 s px py : transformed s (rotationAround 0 px py) = s.
Proof.
  unfold transformed; rewrite (map_ext _ (fun v => v)) by apply rotationAround_0.
  apply map_id.
Qed.

Lemma forceAngle_eq angle w :
  let p1 := set_tiltAngle angle (set_angularVelocity 0 (plank w)) in
  let p2 := set_shape (transformed (unrotatedShape (plank w))
              (rotationAround angle (vx (pivotPoint (plank w))) (vy (pivotPoint (plank w))))) p1 in
  forceAngle angle w
  = match massesOnSurface (plank w) with
    | [] => Ok tt (mkWorld p2 (masses w))
    | _ :: _ =>
        Exc (TypeError "Cannot read property 'getMassDistanceFromCenter' of undefined")
          (mkWorld p2 (masses w))
    end.
Proof.
  cbv zeta.
  unfold forceAngle, bind at 1, modifyPlank at 1; cbn beta iota.
  unfold bind at 1, modifyPlank at 1; cbn beta iota.
  unfold bind at 1, updatePlank, bind at 1, getPlank; cbn beta iota; cbn [plank masses].
  unfold nle, toNumber; cbv iota.
  unfold modifyPlank; cbn beta iota.
  rewrite updateMassPositions_eq; reflexivity.
Qed.

(** ** Extras: step, shape and mass positions *)

(** Every [step] of a plank the user does not hold leaves an angular
    velocity that is 0 or above 0.00001 rad/s in magnitude, and a tilt
    angle that is 0, at the limit, or at least 0.0001 rad in magnitude. *)
Theorem X4_step_thresholds dt w :
  userControlled (plank w) = false ->
  let p' := plank (res_world (step dt w)) in
  (angularVelocity p' = 0 \/ 1 / 100000 < Rabs (angularVelocity p'))
  /\ (tiltAngle p' = 0 \/ Rabs (tiltAngle p') = Rabs (maxTiltAngle (plank w))
      \/ 1 / 10000 <= Rabs (tiltAngle p')).
Proof.
  intro U; cbv zeta.
  destruct (step_physics dt w U) as (w1 & _ & Ht & Hv & _).
  rewrite Ht, Hv; apply limitTilt_thresholds, stepVelocity_threshold.
Qed.

Lemma X4_witness :
  userControlled (plank freshWorld) = false
  /\ let p' := plank (res_world (step 1 freshWorld)) in
     (angularVelocity p' = 0 \/ 1 / 100000 < Rabs (angularVelocity p'))
     /\ (tiltAngle p' = 0 \/ Rabs (tiltAngle p') = Rabs (maxTiltAngle (plank freshWorld))
         \/ 1 / 10000 <= Rabs (tiltAngle p')).
Proof.
  assert (U : userControlled (plank freshWorld) = false) by reflexivity.
  split; [exact U | exact (X4_step_thresholds 1 freshWorld U)].
Defined.

(** [forceAngle( angle )] sets the angular velocity to 0 and the tilt to
    [angle] and rotates the unrotated outline about the pivot, wherever
    the pivot is (the pivot check of [updatePlank] never throws); it then
    throws a [TypeError] as soon as one mass is on the surface, and
    returns otherwise. *)
Theorem X5_forceAngle_no_pivot_error angle w :
  let p1 := set_tiltAngle angle (set_angularVelocity 0 (plank w)) in
  let p2 := set_shape (transformed (unrotatedShape (plank w))
              (rotationAround angle (vx (pivotPoint (plank w))) (vy (pivotPoint (plank w))))) p1 in
  forceAngle angle w
  = match massesOnSurface (plank w) with
    | [] => Ok tt (mkWorld p2 (masses w))
    | _ :: _ =>
        Exc (TypeError "Cannot read property 'getMassDistanceFromCenter' of undefined")
          (mkWorld p2 (masses w))
    end.
Proof. apply forceAngle_eq. Qed.

(** With no mass on the plank, [forceToLevelAndStill] returns the plank
    to its unrotated outline, level and still, and changes nothing else,
    wherever the pivot is. *)
Theorem X6_forceToLevelAndStill_restores w :
  massesOnSurface (plank w) = [] ->
  forceToLevelAndStill w
  = Ok tt (mkWorld (set_shape (unrotatedShape (plank w))
                      (set_tiltAngle 0 (set_angularVelocity 0 (plank w)))) (masses w)).
Proof.
  intro E; unfold forceToLevelAndStill; rewrite forceAngle_eq; cbv zeta.
  rewrite E, transformed_rotation_0; reflexivity.
Qed.

Lemma X6_witness :
  forceToLevelAndStill pivotAboveWorld
  = Ok tt (mkWorld (set_shape (unrotatedShape (plank pivotAboveWorld))
                      (set_tiltAngle 0 (set_angularVelocity 0 (plank pivotAboveWorld))))
                   (masses pivotAboveWorld)).
Proof. apply X6_forceToLevelAndStill_restores; reflexivity. Defined.

(** [updateMassPositions] changes nothing when no mass is on the surface,
    and otherwise throws a [TypeError] on the first mass, before any
    change: its callback reads [this] as [undefined]. *)
Theorem X7_updateMassPositions_outcome w :
  updateMassPositions w
  = match massesOnSurface (plank w) with
    | [] => Ok tt w
    | _ :: _ => Exc (TypeError "Cannot read property 'getMassDistanceFromCenter' of undefined") w
    end.
Proof. apply updateMassPositions_eq. Qed.

(** ** Attaching, detaching and weighing masses *)

Lemma indexOf_notin l m : ~ In m l -> indexOf l m = (-1)%Z.
Proof.
  induction l as [|a l IH]; intro N; [reflexivity|]; simpl.
  destruct (Nat.eqb_spec a m) as [->|_]; [exfalso; apply N; left; reflexivity|].
  rewrite IH by (intro H; apply N; right; exact H); reflexivity.
Qed.

Lemma indexOf_in l m :
  In m l -> exists k, indexOf l m = Z.of_nat k /\ nth_error l k = Some m.
Proof.
  induction l as [|a l IH]; intro H; [destruct H|]; simpl.
  destruct (Nat.eqb_spec a m) as [->|Ne]; [exists 0%nat; split; reflexivity|].
  destruct H as [->|H]; [contradiction|].
  destruct (IH H) as (k & E & N); exists (S k); split; [|exact N].
  rewrite E; destruct (Z.ltb_spec (Z.of_nat k) 0); lia.
Qed.

Lemma firstn_skipn_nth {A} (l : list A) k x :
  nth_error l k = Some x -> firstn 1 (skipn k l) = [x].
Proof.
  revert k; induction l as [|a l IH]; intros [|k] H; try discriminate; simpl in H.
  - injection H as ->; reflexivity.
  - exact (IH k H).
Qed.

(** What [splice( indexOf( m ), 1 )] returns: [[m]] when [m] is in the
    array; otherwise [indexOf] gives [-1], and the last element. *)
Lemma splice_indexOf l m :
  snd (js_splice1 l (indexOf l m))
  = if in_dec Nat.eq_dec m l then [m] else skipn (pred (List.length l)) l.
Proof.
  destruct (in_dec Nat.eq_dec m l) as [I|N].
  - destruct (indexOf_in l m I) as (k & E & Hn); rewrite E.
    assert (K : (k < List.length l)%nat) by (apply nth_error_Some; congruence).
    unfold js_splice1; cbn [snd].
    replace ((Z.of_nat k <? 0)%Z) with false by (symmetry; apply Z.ltb_ge; lia).
    replace (Z.to_nat (Z.min (Z.of_nat k) (Z.of_nat (List.length l)))) with k by lia.
    exact (firstn_skipn_nth l k m Hn).
  - rewrite indexOf_notin by exact N.
    unfold js_splice1; cbn [snd].
    replace (Z.to_nat (if (-1 <? 0)%Z then Z.max (Z.of_nat (List.length l) + -1) 0
                       else Z.min (-1) (Z.of_nat (List.length l))))
      with (pred (List.length l)) by (simpl; lia).
    apply firstn_all2; rewrite length_skipn; lia.
Qed.

Lemma updateNetTorque_masses w : masses (res_world (updateNetTorque w)) = masses w.
Proof.
  unfold updateNetTorque, bind, modifyPlank, getPlank; cbn.
  destruct (String.eqb _ _); [destruct (_ || _)|]; reflexivity.
Qed.

Lemma removeMassFromSurface_no_pairs m w :
  elems (massDistancePairs (plank w)) = [] ->
  removeMassFromSurface m w
  = updateNetTorque
      (mkWorld (set_massesOnSurface
                  (snd (js_splice1 (massesOnSurface (plank w))
                          (indexOf (massesOnSurface (plank w)) m))) (plank w))
         (fun n => if Nat.eqb n m then set_onPlank false
                     (if Nat.eqb n m then set_rotationAngle 0 (masses w n) else masses w n)
                   else if Nat.eqb n m then set_rotationAngle 0 (masses w n)
                   else masses w n)).
Proof.
  intro E; destruct w as [p ms]; destruct p; cbn [plank massDistancePairs] in E.
  destruct massDistancePairs0 as [el key]; cbn [elems] in E; subst el.
  reflexivity.
Qed.

Lemma updateNetTorque_plank_fields w :
  let p' := plank (res_world (updateNetTorque w)) in
  massesOnSurface p' = massesOnSurface (plank w)
  /\ forceVectors p' = forceVectors (plank w)
  /\ massDistancePairs p' = massDistancePairs (plank w)
  /\ samePhysics w (res_world (updateNetTorque w)).
Proof.
  cbv zeta.
  pose proof (updateNetTorque_collections w) as (H1 & H2 & H3).
  repeat split; try assumption; apply updateNetTorque_physics.
Qed.

Lemma getTorqueDueToMasses_fold (px : R) (ms : MassId -> Mass) (xOf : MassId -> R) l a :
  (forall m, In m l -> toNumber (jx (position (ms m))) = Some (xOf m)) ->
  fold_left (fun torque m => nadd torque (nsub (Some px)
               (nmul (toNumber (jx (position (ms m)))) (Some (mass (ms m)))))) l (Some a)
  = Some (a + INR (List.length l) * px
          - fold_right (fun m s => xOf m * mass (ms m) + s) 0 l).
Proof.
  revert a; induction l as [|m l IH]; intros a H; cbn [fold_left fold_right List.length].
  - cbn [INR]; f_equal; ring.
  - rewrite (H m (or_introl eq_refl)); cbn [nadd nsub nmul nlift2].
    rewrite IH by (intros n Hn; apply H; right; exact Hn).
    rewrite S_INR; f_equal; ring.
Qed.

Lemma getTorqueDueToMasses_fold_NaN (px : R) (ms : MassId -> Mass) l acc :
  (exists m, In m l /\ toNumber (jx (position (ms m))) = None) ->
  fold_left (fun torque m => nadd torque (nsub (Some px)
               (nmul (toNumber (jx (position (ms m)))) (Some (mass (ms m)))))) l acc
  = None.
Proof.
  assert (Stay : forall l', fold_left (fun torque m => nadd torque (nsub (Some px)
               (nmul (toNumber (jx (position (ms m)))) (Some (mass (ms m)))))) l' None = None).
  { induction l' as [|m l' IH]; [reflexivity|]; exact IH. }
  revert acc; induction l as [|m l IH]; intros acc (n & Hn & N); [destruct Hn|].
  cbn [fold_left]; destruct Hn as [<- | Hn].
  - rewrite N; destruct acc; apply Stay.
  - apply IH; exists n; split; assumption.
Qed.

(** ** Extras: attaching, detaching and weighing masses *)

(** When the mass-distance array has no element, [removeMassFromSurface m]
    returns; the masses on the surface become [[m]] if [m] was among them
    (the code keeps what [splice] removes), and otherwise the last of them
    only; the force vectors, the mass-distance array and the tilt, limit
    and velocity are kept; mass [m] gets rotation 0 and leaves the plank,
    and no other mass changes. *)
Theorem X8_removeMassFromSurface_without_pairs m w :
  elems (massDistancePairs (plank w)) = [] ->
  exists w', removeMassFromSurface m w = Ok tt w'
    /\ massesOnSurface (plank w')
       = (if in_dec Nat.eq_dec m (massesOnSurface (plank w)) then [m]
          else skipn (pred (List.length (massesOnSurface (plank w)))) (massesOnSurface (plank w)))
    /\ forceVectors (plank w') = forceVectors (plank w)
    /\ massDistancePairs (plank w') = massDistancePairs (plank w)
    /\ samePhysics w w'
    /\ masses w' m = set_onPlank false (set_rotationAngle 0 (masses w m))
    /\ (forall n, n <> m -> masses w' n = masses w n).
Proof.
  intro E; rewrite (removeMassFromSurface_no_pairs m w E).
  match goal with |- context [updateNetTorque ?w1] =>
    destruct (updateNetTorque_ok w1) as [w' U];
    pose proof (updateNetTorque_plank_fields w1) as F;
    pose proof (updateNetTorque_masses w1) as Ms;
    rewrite U in F, Ms; cbn [res_world] in F, Ms; cbv zeta in F
  end.
  destruct F as (F1 & F2 & F3 & Ht & Hm & Hv).
  exists w'; rewrite U; split; [reflexivity|].
  rewrite F1, F2, F3, Ms; cbn [plank masses massesOnSurface forceVectors massDistancePairs
    set_massesOnSurface] in *.
  rewrite splice_indexOf.
  split; [reflexivity|]; split; [reflexivity|]; split; [reflexivity|].
  split; [unfold samePhysics; rewrite Ht, Hm, Hv; repeat split|].
  split; [rewrite Nat.eqb_refl; reflexivity|].
  intros n Ne; apply Nat.eqb_neq in Ne; rewrite Ne; reflexivity.
Qed.

Lemma X8_witness :
  elems (massDistancePairs (plank twoMassWorld)) = []
  /\ exists w', removeMassFromSurface 1%nat twoMassWorld = Ok tt w'
       /\ massesOnSurface (plank w') = [1%nat].
Proof.
  assert (E : elems (massDistancePairs (plank twoMassWorld)) = []) by reflexivity.
  split; [exact E|].
  destruct (X8_removeMassFromSurface_without_pairs 1%nat twoMassWorld E)
    as (w' & R & Hl & _).
  exists w'; split; [exact R|]; rewrite Hl; reflexivity.
Defined.

(** [removeAllMasses] changes nothing when no mass is on the surface, and
    otherwise throws a [TypeError] before removing any mass: the plank has
    no [removeMass] method. *)
Theorem X9_removeAllMasses_outcome w :
  removeAllMasses w
  = match massesOnSurface (plank w) with
    | [] => Ok tt w
    | _ :: _ => Exc (TypeError "thisPlank.removeMass is not a function") w
    end.
Proof.
  unfold removeAllMasses, bind, getPlank; cbn beta iota.
  destruct (massesOnSurface (plank w)); reflexivity.
Qed.

(** [isBalanced] returns [true] when no mass is on the surface, and
    otherwise throws a [TypeError] on the first mass, before any change:
    its callback reads [this] as [undefined]. *)
Theorem X10_isBalanced_outcome w :
  isBalanced w
  = match massesOnSurface (plank w) with
    | [] => Ok true w
    | _ :: _ => Exc (TypeError "Cannot read property 'getMassDistanceFromCenter' of undefined") w
    end.
Proof.
  unfold isBalanced, bind at 1, getPlank at 1; cbn beta iota.
  destruct (massesOnSurface (plank w)); [|reflexivity].
  unfold forEachAcc, bind, ret, Rltb; rewrite Rabs_R0.
  destruct (Rlt_dec 0 (1 / 1000000)) as [_|N]; [reflexivity | lra].
Qed.

(** [getMassDistanceFromCenter] returns 0 for every mass and plank, without
    change: the loop bound, the array converted to a number, is 0 (no
    element) or [NaN]. *)
Theorem X11_getMassDistanceFromCenter_zero m w :
  getMassDistanceFromCenter m w = Ok 0 w.
Proof. apply getMassDistanceFromCenter_zero. Qed.

(** [getTorqueDueToMasses] returns, without change, the pivot's x
    coordinate once per mass on the surface, minus the sum of
    [x * mass] over those masses, when the x coordinates of their
    positions are numbers; it returns [NaN] as soon as one of them is
    not a number. *)
Theorem X12_getTorqueDueToMasses_value w :
  (forall xOf : MassId -> R,
     (forall m, In m (massesOnSurface (plank w)) ->
        toNumber (jx (position (masses w m))) = Some (xOf m)) ->
     getTorqueDueToMasses w
     = Ok (Some (INR (List.length (massesOnSurface (plank w))) * vx (pivotPoint (plank w))
                 - fold_right (fun m s => xOf m * mass (masses w m) + s) 0
                     (massesOnSurface (plank w)))) w)
  /\ ((exists m, In m (massesOnSurface (plank w))
                 /\ toNumber (jx (position (masses w m))) = None) ->
      getTorqueDueToMasses w = Ok None w).
Proof.
  unfold getTorqueDueToMasses, bind, getPlank; cbn beta iota; split.
  - intros xOf H; rewrite (getTorqueDueToMasses_fold _ _ xOf) by exact H.
    do 2 f_equal; ring.
  - intro H; rewrite getTorqueDueToMasses_fold_NaN by exact H; reflexivity.
Qed.

Lemma X12_witness :
  getTorqueDueToMasses twoMassWorld
  = Ok (Some (INR 2 * 0 - (0 * 5 + (0 * 5 + 0)))) twoMassWorld.
Proof.
  apply (proj1 (X12_getTorqueDueToMasses_value twoMassWorld) (fun _ => 0)).
  intros m _; reflexivity.
Defined.

(** [getSnapToLocations], and hence [getOpenMassDroppedLocation], throws a
    [TypeError] on every plank, before any change. *)
Theorem X13_snap_locations_throw pt w :
  getSnapToLocations w = Exc (TypeError "snapToLocations.add is not a function") w
  /\ getOpenMassDroppedLocation pt w
     = Exc (TypeError "snapToLocations.add is not a function") w.
Proof. split; [apply getSnapToLocations_throws | apply getOpenMassDroppedLocation_throws]. Qed.

(** [addMassToSurface] throws a [TypeError] for every mass and plank,
    before any change: no mass is ever attached by it. *)
Theorem X14_addMassToSurface_throws m w :
  addMassToSurface m w = Exc (TypeError "snapToLocations.add is not a function") w.
Proof. apply addMassToSurface_throws. Qed.

(** ** Outline bounds and surface geometry *)

Lemma fold_left_Rmax_ge (c : Vector2 -> R) l a :
  a <= fold_left (fun acc q => Rmax acc (c q)) l a
  /\ forall q, In q l -> c q <= fold_left (fun acc q => Rmax acc (c q)) l a.
Proof.
  revert a; induction l as [|q0 l IH]; intro a; cbn [fold_left].
  - split; [apply Rle_refl | intros q []].
  - destruct (IH (Rmax a (c q0))) as [H1 H2]; split.
    + eapply Rle_trans; [apply Rmax_l | exact H1].
    + intros q [<-|Hq]; [eapply Rle_trans; [apply Rmax_r | exact H1] | exact (H2 q Hq)].
Qed.

Lemma fold_left_Rmax_le (c : Vector2 -> R) l a M :
  a <= M -> (forall q, In q l -> c q <= M) ->
  fold_left (fun acc q => Rmax acc (c q)) l a <= M.
Proof.
  revert a; induction l as [|q0 l IH]; intros a Ha Hl; cbn [fold_left]; [exact Ha|].
  apply IH; [apply Rmax_lub; [exact Ha | apply Hl; left; reflexivity]|].
  intros q Hq; apply Hl; right; exact Hq.
Qed.

Lemma fold_left_Rmin_le (c : Vector2 -> R) l a :
  fold_left (fun acc q => Rmin acc (c q)) l a <= a
  /\ forall q, In q l -> fold_left (fun acc q => Rmin acc (c q)) l a <= c q.
Proof.
  revert a; induction l as [|q0 l IH]; intro a; cbn [fold_left].
  - split; [apply Rle_refl | intros q []].
  - destruct (IH (Rmin a (c q0))) as [H1 H2]; split.
    + eapply Rle_trans; [exact H1 | apply Rmin_l].
    + intros q [<-|Hq]; [eapply Rle_trans; [exact H1 | apply Rmin_r] | exact (H2 q Hq)].
Qed.

Lemma fold_left_Rmin_ge (c : Vector2 -> R) l a M :
  M <= a -> (forall q, In q l -> M <= c q) ->
  M <= fold_left (fun acc q => Rmin acc (c q)) l a.
Proof.
  revert a; induction l as [|q0 l IH]; intros a Ha Hl; cbn [fold_left]; [exact Ha|].
  apply IH; [apply Rmin_glb; [exact Ha | apply Hl; left; reflexivity]|].
  intros q Hq; apply Hl; right; exact Hq.
Qed.

(** Closes the goals about the points of [plankOutline]: a membership
    is split into its seven cases, each settled by [lra]. *)
Ltac outline_points :=
  unfold PLANK_LENGTH, PLANK_THICKNESS in *;
  repeat match goal with
         | H : In _ [] |- _ => destruct H
         | H : In _ _ |- _ => destruct H as [<-|H]; [cbn [vx vy v2plus]; lra|]
         | H : False |- _ => destruct H
         end;
  cbn [vx vy v2plus]; lra.

Lemma boundsMaxX_plankOutline loc :
  boundsMaxX (plankOutline loc) = vx loc + PLANK_LENGTH / 2.
Proof.
  unfold boundsMaxX, fold_bound, plankOutline; cbn [map].
  apply Rle_antisym.
  - apply fold_left_Rmax_le; [|intros q Hq]; outline_points.
  - eapply Rle_trans; [|apply (proj2 (fold_left_Rmax_ge _ _ _)); right; left; reflexivity].
    cbn [vx v2plus]; lra.
Qed.

Lemma boundsMinX_plankOutline loc :
  boundsMinX (plankOutline loc) = vx loc - PLANK_LENGTH / 2.
Proof.
  unfold boundsMinX, fold_bound, plankOutline; cbn [map].
  apply Rle_antisym.
  - eapply Rle_trans; [apply (proj2 (fold_left_Rmin_le _ _ _)); do 4 right; left; reflexivity|].
    cbn [vx v2plus]; unfold PLANK_LENGTH; lra.
  - apply fold_left_Rmin_ge; [|intros q Hq]; outline_points.
Qed.

Lemma boundsMaxY_plankOutline loc :
  boundsMaxY (plankOutline loc) = vy loc + PLANK_THICKNESS.
Proof.
  unfold boundsMaxY, fold_bound, plankOutline; cbn [map].
  apply Rle_antisym.
  - apply fold_left_Rmax_le; [|intros q Hq]; outline_points.
  - eapply Rle_trans; [|apply (proj2 (fold_left_Rmax_ge _ _ _)); right; right; left; reflexivity].
    cbn [vy v2plus]; lra.
Qed.

Lemma boundsMinY_plankOutline loc :
  boundsMinY (plankOutline loc) = vy loc.
Proof.
  unfold boundsMinY, fold_bound, plankOutline; cbn [map].
  apply Rle_antisym.
  - eapply Rle_trans; [apply (proj1 (fold_left_Rmin_le _ _ _))|].
    cbn [vy v2plus]; lra.
  - apply fold_left_Rmin_ge; [|intros q Hq]; outline_points.
Qed.

(** [removeCenterCandidate] drops the ninth candidate, if there is one. *)
Lemma removeCenterCandidate_eq cands :
  removeCenterCandidate cands = firstn 8 cands ++ skipn 9 cands.
Proof.
  unfold removeCenterCandidate; rewrite NUM_SNAP_TO_LOCATIONS_eq.
  change (Nat.eqb (Nat.modulo 17 2) 1) with true; cbv iota.
  change (Z.of_nat (Nat.div 17 2)) with 8%Z.
  unfold js_splice1; cbn [fst]; change ((8 <? 0)%Z) with false; cbv iota.
  destruct (Nat.le_gt_cases 8 (List.length cands)) as [Ge|Lt].
  - replace (Z.to_nat (Z.min 8 (Z.of_nat (List.length cands)))) with 8%nat by lia.
    reflexivity.
  - replace (Z.to_nat (Z.min 8 (Z.of_nat (List.length cands)))) with (List.length cands)
      by lia.
    rewrite firstn_all; rewrite firstn_all2 by lia.
    rewrite !skipn_all2 by lia; reflexivity.
Qed.

(** ** Extras: outline, geometry and slot choice *)

(** [addMassToSurfaceAt( mass, d )] always throws and leaves the plank
    unchanged.  For [d] up to half the plank length it rejects the
    distance before any change.  Beyond, it sets the mass's position from
    the surface center, whose [x] is a string and [y] [NaN]: the [x] of
    the position becomes the string of [bottomCenterLocation] followed by
    the two horizontal offsets, its [y] becomes [NaN]; the assertion
    [isPointAbovePlank( mass.position )] then fails.  No other mass
    changes. *)
Theorem X15_addMassToSurfaceAt_throws m d w :
  let t := tiltAngle (plank w) in
  addMassToSurfaceAt m d w
  = if Rle_dec d (PLANK_LENGTH / 2) then
      Exc (Error "Warning: Attempt to add mass at invalid distance from center") w
    else
      Exc (Error "Assertion failed")
        (mkWorld (plank w)
           (fun n => if Nat.eqb n m then
                       set_position
                         (mkJSVector2
                            (JVVectorString (bottomCenterLocation (plank w))
                               [vx (rotated (mkVector2 0 PLANK_THICKNESS) t);
                                vx (rotated (mkVector2 d 0) t)])
                            JVNaN)
                         (masses w n)
                     else masses w n)).
Proof.
  cbv zeta; unfold addMassToSurfaceAt.
  destruct (Rle_dec d (PLANK_LENGTH / 2)); [reflexivity|].
  unfold bind at 1, getPlank at 1; cbn beta iota.
  unfold bind at 1, modifyMass at 1; cbn beta iota.
  unfold bind at 1, getMass at 1; cbn beta iota.
  unfold bind at 1, getPlank at 1; cbn beta iota; cbn [plank].
  rewrite isPointAbovePlank_false.
  reflexivity.
Qed.

Lemma closestOpenLocation_fold pt l : forall o S,
  match o with
  | None => forall c, In c S -> INTER_SNAP_TO_MARKER_DISTANCE < Rabs (vx c - vx pt)
  | Some b => In b S /\ Rabs (vx b - vx pt) <= INTER_SNAP_TO_MARKER_DISTANCE
      /\ forall c, In c S -> Rabs (vx c - vx pt) <= INTER_SNAP_TO_MARKER_DISTANCE ->
         distance b pt <= distance c pt
  end ->
  match fold_left (fun closest c =>
    if Rleb (Rabs (vx c - vx pt)) INTER_SNAP_TO_MARKER_DISTANCE then
      match closest with
      | None => Some c
      | Some b => if Rltb (distance c pt) (distance b pt) then Some c else closest
      end
    else closest) l o with
  | None => forall c, In c (S ++ l) -> INTER_SNAP_TO_MARKER_DISTANCE < Rabs (vx c - vx pt)
  | Some b => In b (S ++ l) /\ Rabs (vx b - vx pt) <= INTER_SNAP_TO_MARKER_DISTANCE
      /\ forall c, In c (S ++ l) -> Rabs (vx c - vx pt) <= INTER_SNAP_TO_MARKER_DISTANCE ->
         distance b pt <= distance c pt
  end.
Proof.
  induction l as [|a l IH]; intros o S H; cbn [fold_left].
  - rewrite app_nil_r; exact H.
  - replace (S ++ a :: l) with ((S ++ [a]) ++ l) by (rewrite <- app_assoc; reflexivity).
    apply IH.
    assert (InA : In a (S ++ [a])) by (apply in_or_app; right; left; reflexivity).
    assert (InS : forall c, In c S -> In c (S ++ [a])) by (intros; apply in_or_app; left; assumption).
    assert (Split : forall c, In c (S ++ [a]) -> In c S \/ c = a).
    { intros c Hc; apply in_app_or in Hc; destruct Hc as [Hc|[<-|[]]]; auto. }
    unfold Rleb; destruct (Rle_dec (Rabs (vx a - vx pt)) INTER_SNAP_TO_MARKER_DISTANCE) as [Wa|Wa].
    + destruct o as [b|].
      * destruct H as (Hb & Wb & Mb).
        unfold Rltb; destruct (Rlt_dec (distance a pt) (distance b pt)) as [Lt|Ge].
        -- split; [exact InA|]; split; [exact Wa|].
           intros c Hc Wc; destruct (Split c Hc) as [Hc' | ->]; [|apply Rle_refl].
           specialize (Mb c Hc' Wc); lra.
        -- split; [apply InS; exact Hb|]; split; [exact Wb|].
           intros c Hc Wc; destruct (Split c Hc) as [Hc' | ->]; [exact (Mb c Hc' Wc)|].
           apply Rnot_lt_le; exact Ge.
      * split; [exact InA|]; split; [exact Wa|].
        intros c Hc Wc; destruct (Split c Hc) as [Hc' | ->]; [|apply Rle_refl].
        specialize (H c Hc'); lra.
    + destruct o as [b|].
      * destruct H as (Hb & Wb & Mb).
        split; [apply InS; exact Hb|]; split; [exact Wb|].
        intros c Hc Wc; destruct (Split c Hc) as [Hc' | ->]; [exact (Mb c Hc' Wc) | contradiction].
      * intros c Hc; destruct (Split c Hc) as [Hc' | ->]; [exact (H c Hc')|].
        apply Rnot_le_lt; exact Wa.
Qed.

(** For a point whose coordinates are numbers, [closestOpenLocation] (the
    last loop of [getOpenMassDroppedLocation]) returns [null] exactly when
    no candidate is within
    [INTER_SNAP_TO_MARKER_DISTANCE] horizontally of the point; otherwise it
    returns such a candidate, at least as close to the point as any other
    such candidate. *)
Theorem X16_closestOpenLocation_spec pt cands :
  match closestOpenLocation (numVec pt) cands with
  | None => forall c, In c cands -> INTER_SNAP_TO_MARKER_DISTANCE < Rabs (vx c - vx pt)
  | Some b => In b cands /\ Rabs (vx b - vx pt) <= INTER_SNAP_TO_MARKER_DISTANCE
      /\ forall c, In c cands -> Rabs (vx c - vx pt) <= INTER_SNAP_TO_MARKER_DISTANCE ->
         distance b pt <= distance c pt
  end.
Proof.
  exact (closestOpenLocation_fold pt cands None [] (fun c H => match H with end)).
Qed.

(** Given the candidate list, [getOpenMassDroppedLocation] drops the ninth
    candidate and then picks among the others as [closestOpenLocation]
    does: the occupancy loop removes nothing, since [_.without] compares
    the candidate vectors with a mass. *)
Theorem X17_resolveDroppedLocation_eq w p cands pt :
  resolveDroppedLocation w p cands pt
  = closestOpenLocation pt (firstn 8 cands ++ skipn 9 cands).
Proof.
  unfold resolveDroppedLocation; rewrite excludeOccupied_id, removeCenterCandidate_eq.
  reflexivity.
Qed.

(** [getPlankSurfaceCenter] never yields a pair of numbers: its [x] is
    the string of [bottomCenterLocation] followed by the horizontal offset
    of the surface, its [y] is [NaN].  So [getSurfaceYValue] is [NaN] for
    every plank and argument, and [isPointAbovePlank] is false for every
    plank and point. *)
Theorem X18_surface_center_not_numeric p x pt :
  getPlankSurfaceCenter p
  = mkJSVector2 (JVVectorString (bottomCenterLocation p)
                   [vx (rotated (mkVector2 0 PLANK_THICKNESS) (tiltAngle p))])
                JVNaN
  /\ toNumber (jx (getPlankSurfaceCenter p)) = None
  /\ getSurfaceYValue p x = None
  /\ isPointAbovePlank p pt = false.
Proof.
  split; [apply getPlankSurfaceCenter_eq|].
  split; [reflexivity|].
  split; [apply getSurfaceYValue_NaN | apply isPointAbovePlank_false].
Qed.

(** The constructor's outline is a 4.5 m by 0.05 m box whose bottom center
    is [location]; it is both the shape and the unrotated shape. *)
Theorem X19_newPlank_outline location pivot column :
  let p := newPlank location pivot column in
  shape p = unrotatedShape p
  /\ boundsMinX (shape p) = vx location - PLANK_LENGTH / 2
  /\ boundsMaxX (shape p) = vx location + PLANK_LENGTH / 2
  /\ boundsMinY (shape p) = vy location
  /\ boundsMaxY (shape p) = vy location + PLANK_THICKNESS.
Proof.
  cbv zeta; cbn [shape unrotatedShape newPlank].
  split; [reflexivity|].
  rewrite boundsMinX_plankOutline, boundsMaxX_plankOutline, boundsMinY_plankOutline,
    boundsMaxY_plankOutline; repeat split.
Qed.

(** For a location at most half a plank length from the ground line, the
    constructor's [maxTiltAngle] is the angle at which an end of the plank,
    half a length from the center, has dropped by [location.y]; it lies in
    [[-PI/2, PI/2]] and has the sign of [location.y]. *)
Theorem X20_newPlank_maxTiltAngle location pivot column :
  Rabs (vy location) <= PLANK_LENGTH / 2 ->
  let a := maxTiltAngle (newPlank location pivot column) in
  PLANK_LENGTH / 2 * sin a = vy location
  /\ - (PI / 2) <= a <= PI / 2
  /\ (0 <= vy location -> 0 <= a).
Proof.
  intro B; cbv zeta; cbn [maxTiltAngle newPlank].
  pose proof (Rle_abs (vy location)); pose proof (Rle_abs (- vy location)).
  rewrite Rabs_Ropp in *.
  assert (I : -1 <= vy location / (PLANK_LENGTH / 2) <= 1).
  { replace (vy location / (PLANK_LENGTH / 2)) with (vy location * (4 / 9))
      by (unfold PLANK_LENGTH; field).
    unfold PLANK_LENGTH in B; lra. }
  pose proof (asin_bound (vy location / (PLANK_LENGTH / 2))) as Bd.
  split; [rewrite sin_asin by exact I; unfold PLANK_LENGTH; field|].
  split; [exact Bd|].
  intro Y; destruct (Rle_or_lt 0 (asin (vy location / (PLANK_LENGTH / 2)))) as [Ge|Lt];
    [exact Ge|exfalso].
  assert (Lo : - PI < asin (vy location / (PLANK_LENGTH / 2)))
    by (pose proof PI_RGT_0; lra).
  pose proof (sin_lt_0_var _ Lo Lt) as Sn.
  rewrite sin_asin in Sn by exact I.
  assert (0 <= vy location / (PLANK_LENGTH / 2))
    by (unfold Rdiv; apply Rmult_le_pos; [exact Y | unfold PLANK_LENGTH; lra]).
  lra.
Qed.

Lemma X20_witness :
  Rabs (vy (mkVector2 0 (9 / 8))) <= PLANK_LENGTH / 2
  /\ let a := maxTiltAngle (newPlank (mkVector2 0 (9 / 8)) (mkVector2 0 0) "none") in
     PLANK_LENGTH / 2 * sin a = 9 / 8
     /\ - (PI / 2) <= a <= PI / 2 /\ (0 <= 9 / 8 -> 0 <= a).
Proof.
  assert (B : Rabs (vy (mkVector2 0 (9 / 8))) <= PLANK_LENGTH / 2)
    by (cbn [vy]; rewrite Rabs_right by lra; unfold PLANK_LENGTH; lra).
  split; [exact B|].
  exact (X20_newPlank_maxTiltAngle (mkVector2 0 (9 / 8)) (mkVector2 0 0) "none" B).
Defined.

(** ** Invariants of reachable worlds *)

(** The values [updateNetTorque] gives the net torque. *)
Definition torqueValue (w : World) : Prop :=
  currentNetTorque (plank w) = 0 \/ currentNetTorque (plank w) = 1
  \/ currentNetTorque (plank w) = -1.

Definition keepsTorqueValue (w w' : World) : Prop := torqueValue w -> torqueValue w'.

(** The thresholds of [step] on the angular velocity and the tilt angle. *)
Definition thresholds (w : World) : Prop :=
  (angularVelocity (plank w) = 0 \/ 1 / 100000 < Rabs (angularVelocity (plank w)))
  /\ (tiltAngle (plank w) = 0 \/ Rabs (tiltAngle (plank w)) = Rabs (maxTiltAngle (plank w))
      \/ 1 / 10000 <= Rabs (tiltAngle (plank w))).

Lemma keepsTorqueValue_refl w : keepsTorqueValue w w.
Proof. intro H; exact H. Qed.

Lemma keepsTorqueValue_trans w1 w2 w3 :
  keepsTorqueValue w1 w2 -> keepsTorqueValue w2 w3 -> keepsTorqueValue w1 w3.
Proof. unfold keepsTorqueValue; auto. Qed.

Ltac torque_frame := frame keepsTorqueValue_refl keepsTorqueValue_trans.

Lemma updateNetTorque_torqueValue w : torqueValue (res_world (updateNetTorque w)).
Proof.
  unfold torqueValue.
  destruct (string_dec (columnState (plank w)) "none") as [C|C].
  - rewrite (updateNetTorque_none w C); cbv zeta; cbn [res_world plank currentNetTorque
      set_currentNetTorque].
    match goal with |- context [if ?b then 1 else -1] => destruct b end; auto.
  - rewrite (updateNetTorque_column w C); cbn [res_world plank currentNetTorque
      set_currentNetTorque]; auto.
Qed.

Lemma updateNetTorque_keeps : preserves keepsTorqueValue updateNetTorque.
Proof. intros w _; apply updateNetTorque_torqueValue. Qed.

Lemma getMassDistanceFromCenter_keeps m :
  preserves keepsTorqueValue (getMassDistanceFromCenter m).
Proof. intro w; rewrite getMassDistanceFromCenter_zero; apply keepsTorqueValue_refl. Qed.

#[local] Hint Resolve updateNetTorque_keeps getMassDistanceFromCenter_keeps : frames.

Lemma updatePlank_keeps : preserves keepsTorqueValue updatePlank.
Proof. unfold updatePlank; torque_frame. Qed.

Lemma updateMassPositions_keeps : preserves keepsTorqueValue updateMassPositions.
Proof. unfold updateMassPositions, updateMassPositionCallback, this_getPlank; torque_frame. Qed.

#[local] Hint Resolve updatePlank_keeps updateMassPositions_keeps : frames.

Lemma step_keeps dt : preserves keepsTorqueValue (step dt).
Proof. unfold step; torque_frame. Qed.

Lemma forceAngle_keeps angle : preserves keepsTorqueValue (forceAngle angle).
Proof. unfold forceAngle; torque_frame. Qed.

Lemma removePairLoop_keeps fuel j m : preserves keepsTorqueValue (removePairLoop fuel j m).
Proof. revert j; induction fuel as [|f IH]; intro j; simpl; torque_frame. Qed.

Lemma removeForceVectorLoop_keeps fuel j m :
  preserves keepsTorqueValue (removeForceVectorLoop fuel j m).
Proof. revert j; induction fuel as [|f IH]; intro j; simpl; torque_frame. Qed.

#[local] Hint Resolve removePairLoop_keeps removeForceVectorLoop_keeps : frames.

Lemma removeMassFromSurface_keeps m : preserves keepsTorqueValue (removeMassFromSurface m).
Proof. unfold removeMassFromSurface; torque_frame. Qed.

Lemma removeAllMasses_keeps : preserves keepsTorqueValue removeAllMasses.
Proof. unfold removeAllMasses; torque_frame. Qed.

Lemma addMassToSurfaceAt_keeps m d : preserves keepsTorqueValue (addMassToSurfaceAt m d).
Proof.
  intro w; pose proof (addMassToSurfaceAt_samePlank m d w) as H.
  unfold samePlank in H; unfold keepsTorqueValue, torqueValue; rewrite H; auto.
Qed.

Lemma runOp_keepsTorqueValue o w : keepsTorqueValue w (runOp o w).
Proof.
  destruct o; cbn [runOp].
  - exact (step_keeps dt w).
  - exact (forceAngle_keeps 0 w).
  - rewrite forceToMaxAndStill_eq; exact (forceAngle_keeps _ w).
  - rewrite addMassToSurface_throws; apply keepsTorqueValue_refl.
  - exact (addMassToSurfaceAt_keeps m d w).
  - exact (removeMassFromSurface_keeps m w).
  - exact (removeAllMasses_keeps w).
  - intro H; exact H.
  - intro H; exact H.
  - intro H; exact H.
Qed.

Lemma runOp_thresholds o w : thresholds w -> thresholds (runOp o w).
Proof.
  assert (Keep : forall w', samePhysics w w' -> thresholds w -> thresholds w').
  { intros w' (Ht & Hm & Hv); unfold thresholds; rewrite Ht, Hm, Hv; auto. }
  destruct o; cbn [runOp].
  - destruct (userControlled (plank w)) eqn:U.
    + rewrite step_userControlled by exact U; intro H; exact H.
    + destruct (step_physics dt w U) as (w1 & _ & Ht & Hv & Hm).
      intros _; unfold thresholds; rewrite Ht, Hv, Hm.
      apply limitTilt_thresholds, stepVelocity_threshold.
  - unfold forceToLevelAndStill.
    destruct (forceAngle_physics 0 w) as (Ht & Hv & _).
    intros _; unfold thresholds; rewrite Ht, Hv; split; left; reflexivity.
  - rewrite forceToMaxAndStill_eq.
    destruct (forceAngle_physics (maxTiltAngle (plank w)) w) as (Ht & Hv & Hm).
    intros _; unfold thresholds; rewrite Ht, Hv, Hm.
    split; [left; reflexivity | right; left; reflexivity].
  - rewrite addMassToSurface_throws; intro H; exact H.
  - apply Keep, addMassToSurfaceAt_physics.
  - apply Keep, removeMassFromSurface_physics.
  - apply Keep, removeAllMasses_physics.
  - intro H; exact H.
  - intro H; exact H.
  - intro H; exact H.
Qed.

Lemma reachable_stepped : reachable (runOp (OpStep 1) freshWorld).
Proof.
  apply reachable_op; unfold freshWorld; apply reachable_init.
  cbn [vy]; rewrite Rabs_right by lra; unfold PLANK_LENGTH; lra.
Qed.

(** ** Extras: invariants of reachable worlds *)

(** In every world reachable from a constructed plank, whatever the
    operations, the net torque is 0, 1 or -1. *)
Theorem X21_reachable_torque w :
  reachable w ->
  currentNetTorque (plank w) = 0 \/ currentNetTorque (plank w) = 1
  \/ currentNetTorque (plank w) = -1.
Proof.
  induction 1 as [location pivot column ms _ | o w _ IH].
  - left; reflexivity.
  - exact (runOp_keepsTorqueValue o w IH).
Qed.

Lemma X21_witness :
  reachable (runOp (OpStep 1) freshWorld)
  /\ (currentNetTorque (plank (runOp (OpStep 1) freshWorld)) = 0
      \/ currentNetTorque (plank (runOp (OpStep 1) freshWorld)) = 1
      \/ currentNetTorque (plank (runOp (OpStep 1) freshWorld)) = -1).
Proof.
  split; [exact reachable_stepped | exact (X21_reachable_torque _ reachable_stepped)].
Defined.

(** In every world reachable from a constructed plank, the angular velocity
    is 0 or above 0.00001 rad/s in magnitude, and the tilt angle is 0, at
    the limit, or at least 0.0001 rad in magnitude. *)
Theorem X22_reachable_thresholds w :
  reachable w ->
  (angularVelocity (plank w) = 0 \/ 1 / 100000 < Rabs (angularVelocity (plank w)))
  /\ (tiltAngle (plank w) = 0 \/ Rabs (tiltAngle (plank w)) = Rabs (maxTiltAngle (plank w))
      \/ 1 / 10000 <= Rabs (tiltAngle (plank w))).
Proof.
  induction 1 as [location pivot column ms _ | o w _ IH].
  - split; left; reflexivity.
  - exact (runOp_thresholds o w IH).
Qed.

Lemma X22_witness :
  reachable (runOp (OpStep 1) freshWorld)
  /\ let p := plank (runOp (OpStep 1) freshWorld) in
     (angularVelocity p = 0 \/ 1 / 100000 < Rabs (angularVelocity p))
     /\ (tiltAngle p = 0 \/ Rabs (tiltAngle p) = Rabs (maxTiltAngle p)
         \/ 1 / 10000 <= Rabs (tiltAngle p)).
Proof.
  split; [exact reachable_stepped | exact (X22_reachable_thresholds _ reachable_stepped)].
Defined.

(** ** Tick marks and columns *)

Lemma stepVelocity_no_torque v :
  1 / 100000 < Rabs v -> stepVelocity v 0 = v.
Proof.
  intro H; unfold stepVelocity, stepAcceleration.
  replace (0 / MOMENT_OF_INERTIA) with 0 by (unfold Rdiv; ring).
  rewrite Rabs_R0; destruct (Rlt_dec (1 / 100000) 0); [lra|].
  rewrite Rplus_0_r; destruct (Rlt_dec (1 / 100000) (Rabs v)); [reflexivity | contradiction].
Qed.

(** ** Extras: tick marks and columns *)

(** [isTickMarkOccupied] returns [false] for every tick mark and plank,
    without change: its loop bound, the array of masses converted to a
    number, is 0 (no mass) or [NaN], so the loop body never runs. *)
Theorem X23_isTickMarkOccupied_false tickMark w :
  isTickMarkOccupied tickMark w = Ok false w.
Proof.
  unfold isTickMarkOccupied, bind, getPlank; cbn beta iota.
  destruct (massesOnSurface (plank w)) as [|m l]; cbn [massesToNumber tickMarkLoop js_lt INR].
  - destruct (Rlt_dec 0 0); [lra | reflexivity].
  - reflexivity.
Qed.

(** With a support column, a [step] of a plank the user does not hold
    keeps an angular velocity above the 0.00001 rad/s threshold: the zero
    torque leaves it unchanged, so the plank keeps turning at that speed
    until the tilt limit stops it. *)
Theorem X24_step_column_velocity dt w :
  columnState (plank w) <> "none"%string -> userControlled (plank w) = false ->
  1 / 100000 < Rabs (angularVelocity (plank w)) ->
  let v := angularVelocity (plank w) in
  tiltAngle (plank (res_world (step dt w)))
    = fst (limitTilt (maxTiltAngle (plank w)) (tiltAngle (plank w) + v * dt) v)
  /\ angularVelocity (plank (res_world (step dt w)))
    = snd (limitTilt (maxTiltAngle (plank w)) (tiltAngle (plank w) + v * dt) v).
Proof.
  intros C U V; cbv zeta.
  destruct (step_physics dt w U) as (w1 & E & Ht & Hv & _).
  rewrite (updateNetTorque_column w C) in E; injection E as <-.
  cbn [plank currentNetTorque set_currentNetTorque] in Ht, Hv.
  rewrite stepVelocity_no_torque in Ht, Hv by exact V.
  split; assumption.
Qed.

Lemma X24_witness :
  let w := mkWorld (set_angularVelocity 1 (plank columnWorld)) sampleMasses in
  tiltAngle (plank (res_world (step 1 w)))
    = fst (limitTilt (maxTiltAngle (plank w)) (tiltAngle (plank w) + 1 * 1) 1)
  /\ angularVelocity (plank (res_world (step 1 w)))
    = snd (limitTilt (maxTiltAngle (plank w)) (tiltAngle (plank w) + 1 * 1) 1).
Proof.
  apply X24_step_column_velocity; [discriminate | reflexivity |].
  cbn [angularVelocity plank set_angularVelocity]; rewrite Rabs_R1; lra.
Defined.
